(** * Asteroid hazard enrichment: impact estimates, Torino-like scale, ranking

    A shallow embedding of the calculation helpers of the dashboard
    ([calculateImpactEnergy], [calculateTorinoScale], [calculateCraterSize],
    [generateRiskZones], [calculateImportanceScore]) and of the
    enrich-then-sort step of [fetchAsteroidData], followed by the properties
    that the design document states about them.

    JavaScript numbers are IEEE 754 binary64 values, which is what Rocq's
    primitive [float] is: literals are rounded to the nearest double as the
    JavaScript parser does, [NaN] compares false with everything, and the
    arithmetic is the hardware's. *)

From Stdlib Require Import Floats ZArith Lia Sorting.Sorted Sorting.Permutation.
From stdpp Require Import gmap strings list pretty.

Set Warnings "-inexact-float".
Local Open Scope float_scope.

(** ** JavaScript numbers *)

Module JS.

(** [x > y] on numbers; like [<] it is false as soon as one side is NaN. *)
Definition gt (x y : float) : bool := y <? x.
Definition lt (x y : float) : bool := x <? y.

(** [Math.PI], the double nearest to pi. *)
Definition Math_PI : float := 0x1.921fb54442d18p+1.

(** [Math.min(x, y)]: NaN if either argument is NaN, and -0 is below +0. *)
Definition Math_min (x y : float) : float :=
  if is_nan x || is_nan y then nan
  else if x <? y then x
  else if y <? x then y
  else if get_sign x then x else y.

(** [base ** exponent].  ECMAScript fixes the result when the exponent is
    NaN or a zero and when the base is NaN; on the remaining arguments the
    result is what the engine's approximation of the power function gives,
    here the oracle [pow_approx]. *)
Definition exponentiate (pow_approx : float -> float -> float)
    (base exponent : float) : float :=
  if is_nan exponent then nan
  else if exponent =? 0 then 1
  else if is_nan base then nan
  else pow_approx base exponent.

(** A conversion of strings for runs in which no string reaches an
    arithmetic operator: it answers NaN, as the conversion does on a string
    that is not a numeric literal. *)
Definition not_a_numeral (s : string) : float := nan.

(** An oracle that is exact on squares and cubes, the two powers that the
    energy formula takes, by repeated multiplication.  It answers NaN on
    every other exponent and is only used to run the energy formula. *)
Definition pow_square_cube (base exponent : float) : float :=
  if exponent =? 2 then base * base
  else if exponent =? 3 then base * base * base
  else nan.

End JS.

Notation "x >? y" := (JS.gt x y) (at level 70, no associativity) : float_scope.

(** ** Calculation helper functions *)

Section Helpers.

(** The engine's power approximation, see [JS.exponentiate]. *)
Variable pow_approx : float -> float -> float.

Local Notation "x ** y" := (JS.exponentiate pow_approx x y)
  (at level 30, right associativity).

Definition calculateImpactEnergy (diameterKm velocityKmS : float) : float :=
  let density := 2500 in
  let radiusM := (diameterKm * 1000) / 2 in
  let volumeM3 := (4 / 3) * JS.Math_PI * radiusM ** 3 in
  let massKg := volumeM3 * density in
  let velocityMS := velocityKmS * 1000 in
  let energyJoules := 0.5 * massKg * velocityMS ** 2 in
  let megatonsTNT := energyJoules / 4.184e15 in
  megatonsTNT.

Definition calculateCraterSize (diameterKm velocityKmS : float) : float :=
  let craterDiameterKm := diameterKm * 20 * (velocityKmS / 20) ** 0.33 in
  craterDiameterKm.

End Helpers.

Definition calculateTorinoScale
    (diameterKm energyMegatons : float) (isPHA isSentry : bool) : float :=
  if isSentry then
    if energyMegatons >? 1000000 then 10
    else if energyMegatons >? 100000 then 9
    else if energyMegatons >? 10000 then 8
    else if energyMegatons >? 1000 then 7
    else if diameterKm >? 1 then 4
    else 3
  else if isPHA then
    if energyMegatons >? 100000 then 3
    else if diameterKm >? 1 then 2
    else 1
  else 0.

(** [zones.push(a, b, ...)] appends its arguments to [zones]. *)
Definition push (zones items : list string) : list string := zones ++ items.

Definition generateRiskZones
    (energyMegatons : float) (isPHA isSentry : bool) : list string :=
  let zones : list string := [] in
  if energyMegatons >? 100000 then
    push zones ["Global Extinction Event"; "Mass Extinction Event"; "Global Devastation"]
  else if energyMegatons >? 10000 then
    push zones ["Continental Devastation"; "Global Impact"; "Multiple Continents"]
  else if energyMegatons >? 1000 then
    push zones ["Regional Damage"; "Pacific Ocean"; "Atlantic Ocean"; "Indian Ocean"]
  else if energyMegatons >? 100 then
    push zones ["Pacific Ocean"; "Coastal Japan"; "Western Pacific"]
  else if energyMegatons >? 10 then
    push zones ["Remote Ocean"; "Central Pacific"; "North Atlantic"]
  else
    push zones ["Remote Ocean"].

Definition calculateImportanceScore
    (diameterKm velocityKmS missDistanceAU : float) (isPHA isSentry : bool) : float :=
  let score := 0 in
  let score :=
    if diameterKm >? 10 then score + 4
    else if diameterKm >? 1 then score + 3
    else if diameterKm >? 0.5 then score + 2
    else score + 1 in
  let score :=
    if velocityKmS >? 25 then score + 2
    else if velocityKmS >? 15 then score + 1
    else score in
  let score :=
    if JS.lt missDistanceAU 0.05 then score + 2
    else if JS.lt missDistanceAU 0.2 then score + 1
    else score in
  let score :=
    if isSentry then score + 3
    else if isPHA then score + 2
    else score in
  JS.Math_min score 10.

(** ** Records

    The endpoint serves an array of flat records (strings, numbers, booleans,
    possibly null); the enriched record has in addition the [impact] object.
    A record is the finite map from its property names to its values. *)

Inductive value :=
| VNull
| VBool (b : bool)
| VNum (x : float)
| VStr (s : string)
| VImpact (energy_megatons crater_km : float) (risk_zones : list string).

(** The outcome of reading a property is [None] when the record has no such
    property ([undefined]). *)

(** [ToBoolean], applied by [if (...)]. *)
Definition ToBoolean (v : option value) : bool :=
  match v with
  | None | Some VNull => false
  | Some (VBool b) => b
  | Some (VNum x) => negb ((x =? 0) || is_nan x)
  | Some (VStr s) => negb (String.eqb s "")
  | Some (VImpact _ _ _) => true
  end.

Section Pipeline.

(** The engine's power approximation and its conversion of a string to a
    number ([StringToNumber]), neither of which the dashboard defines. *)
Variable pow_approx : float -> float -> float.
Variable StringToNumber : string -> float.

(** [ToNumber], applied by the arithmetic and comparison operators to an
    operand that is not yet a number.  A plain object converts through its
    string form, which is not a numeric literal. *)
Definition ToNumber (v : option value) : float :=
  match v with
  | None => nan
  | Some VNull => 0
  | Some (VBool b) => if b then 1 else 0
  | Some (VNum x) => x
  | Some (VStr s) => StringToNumber s
  | Some (VImpact _ _ _) => nan
  end.

(** The callback of [data.map]: the helpers are declared on numbers and
    booleans and their bodies only use their arguments under arithmetic,
    comparison and [if], so the conversions are made once, at the call. *)
Definition enrich (asteroid : gmap string value) : gmap string value :=
  let diameterKm := ToNumber (asteroid !! "estimated_diameter_km_max") in
  let velocityKmS := ToNumber (asteroid !! "relative_velocity_km_s") in
  let missDistanceAU := ToNumber (asteroid !! "miss_distance_au") in
  let isPHA := ToBoolean (asteroid !! "is_potentially_hazardous_asteroid") in
  let isSentry := ToBoolean (asteroid !! "is_sentry_object") in
  let energyMegatons := calculateImpactEnergy pow_approx diameterKm velocityKmS in
  let torinoScale := calculateTorinoScale diameterKm energyMegatons isPHA isSentry in
  let craterKm := calculateCraterSize pow_approx diameterKm velocityKmS in
  let riskZones := generateRiskZones energyMegatons isPHA isSentry in
  let importanceScore :=
    calculateImportanceScore diameterKm velocityKmS missDistanceAU isPHA isSentry in
  (* { ...asteroid, impact: {...}, torino_scale: ..., importance_score: ... } *)
  <["importance_score" := VNum importanceScore]>
    (<["torino_scale" := VNum torinoScale]>
      (<["impact" := VImpact energyMegatons craterKm riskZones]> asteroid)).

Definition enrichedData (data : list (gmap string value)) : list (gmap string value) :=
  map enrich data.

(** [Array.prototype.sort] with a comparison function.  The language fixes
    the result for a consistent comparator: the elements in ascending order
    of the comparator, elements that compare equal in their original order.
    A stable insertion computes it: [x] goes behind [y] exactly when
    [comparefn(x, y)] is positive (a NaN outcome counts as zero). *)
Fixpoint sort_insert {A} (comparefn : A -> A -> float) (x : A) (l : list A) : list A :=
  match l with
  | [] => [x]
  | y :: l' =>
      if comparefn x y >? 0 then y :: sort_insert comparefn x l' else x :: l
  end.

Definition Array_sort {A} (comparefn : A -> A -> float) (l : list A) : list A :=
  foldr (sort_insert comparefn) [] l.

(** [r.importance_score] as an operand of the subtraction. *)
Definition importance_score (r : gmap string value) : float :=
  ToNumber (r !! "importance_score").

(** [(a, b) => b.importance_score - a.importance_score] *)
Definition by_importance (a b : gmap string value) : float :=
  importance_score b - importance_score a.

Definition sortedData (data : list (gmap string value)) : list (gmap string value) :=
  Array_sort by_importance (enrichedData data).

(** What the request ends in: [fetch] or [response.json()] rejects with an
    error, the status is not a success, the body parses to an array of
    records, or the body parses to something else.  In the last case the
    body is no array, so that [data.map] is not a function, or one of its
    elements is [null], so that the callback cannot read its properties:
    either way a [TypeError] is thrown inside the [try], with the engine's
    message. *)
Inductive response :=
| Rejected (message : string)
| NotOk (status : N) (statusText : string)
| Ok (data : list (gmap string value))
| OkNotRecords (message : string).

(** The component's state that [fetchAsteroidData] sets. *)
Record state := {
  asteroidData : list (gmap string value);
  maxAsteroids : nat;
  loadError : option string;
  isLoadingAsteroids : bool
}.

(** The [try] block: the error's message, or the sorted array. *)
Definition try_block (r : response) : string + list (gmap string value) :=
  match r with
  | Rejected message => inl message
  | NotOk status statusText =>
      inl ("HTTP " +:+ pretty status +:+ ": " +:+ statusText)
  | Ok data => inr (sortedData data)
  | OkNotRecords message => inl message
  end.

Definition fetchAsteroidData (r : response) : state :=
  match try_block r with
  | inr sorted =>
      {| asteroidData := sorted; maxAsteroids := length sorted;
         loadError := None; isLoadingAsteroids := false |}
  | inl message =>
      {| asteroidData := []; maxAsteroids := 0;
         loadError := Some message; isLoadingAsteroids := false |}
  end.

End Pipeline.


(** ** The design document's wording of the policies

    The document gives three of the helpers as tables; they are written here
    as it words them, to be compared with the code above. *)

(** Rows are tried in order and the first one whose guard holds wins. *)
Fixpoint first_match {A} (rows : list (bool * A)) (otherwise : A) : A :=
  match rows with
  | [] => otherwise
  | (guard, result) :: rows' => if guard then result else first_match rows' otherwise
  end.

(** "If sentry: energy>1e6 -> 10; >1e5 -> 9; >1e4 -> 8; >1e3 -> 7;
    diameter>1 -> 4; else 3.  Else if hazardous: energy>1e5 -> 3;
    diameter>1 -> 2; else 1.  Else: 0." *)
Definition classifyTorinoScale
    (diameterKm energyMt : float) (isHazardous isSentry : bool) : float :=
  if isSentry then
    first_match [ (energyMt >? 1e6, 10); (energyMt >? 1e5, 9); (energyMt >? 1e4, 8);
                  (energyMt >? 1e3, 7); (diameterKm >? 1, 4) ] 3
  else if isHazardous then
    first_match [ (energyMt >? 1e5, 3); (diameterKm >? 1, 2) ] 1
  else 0.

(** The energy thresholds and the label set that each selects, in order. *)
Definition riskZoneTable : list (float * list string) :=
  [ (100000, ["Global Extinction Event"; "Mass Extinction Event"; "Global Devastation"]);
    (10000, ["Continental Devastation"; "Global Impact"; "Multiple Continents"]);
    (1000, ["Regional Damage"; "Pacific Ocean"; "Atlantic Ocean"; "Indian Ocean"]);
    (100, ["Pacific Ocean"; "Coastal Japan"; "Western Pacific"]);
    (10, ["Remote Ocean"; "Central Pacific"; "North Atlantic"]) ].

(** The label set below all thresholds. *)
Definition remoteOcean : list string := ["Remote Ocean"].

(** The six label sets. *)
Definition riskZoneLabelSets : list (list string) :=
  map snd riskZoneTable ++ [remoteOcean].

Definition selectRiskZones (energyMt : float) : list string :=
  first_match (map (fun row => (energyMt >? fst row, snd row)) riskZoneTable) remoteOcean.

(** "diameter bracket contributes 1-4 points (>10km:4, >1km:3, >0.5km:2,
    else:1); velocity contributes 0-2 (>25:2, >15:1); proximity contributes
    0-2 (missDistanceAU<0.05:2, <0.2:1); sentry contributes 3, else hazardous
    contributes 2, else 0." *)
Definition diameterPoints (diameterKm : float) : float :=
  first_match [ (diameterKm >? 10, 4); (diameterKm >? 1, 3); (diameterKm >? 0.5, 2) ] 1.

Definition velocityPoints (velocityKmPerSec : float) : float :=
  first_match [ (velocityKmPerSec >? 25, 2); (velocityKmPerSec >? 15, 1) ] 0.

Definition proximityPoints (missDistanceAU : float) : float :=
  first_match [ (JS.lt missDistanceAU 0.05, 2); (JS.lt missDistanceAU 0.2, 1) ] 0.

Definition flagPoints (isHazardous isSentry : bool) : float :=
  first_match [ (isSentry, 3); (isHazardous, 2) ] 0.

(** The integers from 0 to 10, as numbers. *)
Definition zeroToTen : list float := [0; 1; 2; 3; 4; 5; 6; 7; 8; 9; 10].

(** Agreement within a relative tolerance, for a value quoted to five
    significant digits. *)
Definition approximately (x quoted : float) : bool :=
  abs (x - quoted) <=? 5e-5 * abs quoted.

(** The integer part of a number (0 for NaN and the infinities). *)
Definition integer_part (x : float) : Z :=
  match Prim2SF x with
  | S754_finite sign m e =>
      let magnitude := Z.shiftl (Z.pos m) e in
      if sign then (- magnitude)%Z else magnitude
  | _ => 0%Z
  end.

(** The scores that the helper can give, and the records that carry one. *)
Definition oneToTen : list float := [1; 2; 3; 4; 5; 6; 7; 8; 9; 10].

Definition scored (StringToNumber : string -> float) (r : gmap string value) : Prop :=
  In (importance_score StringToNumber r) oneToTen.

Definition score_rank (StringToNumber : string -> float) (r : gmap string value) : Z :=
  integer_part (importance_score StringToNumber r).

(** Descending order of a rank. *)
Definition rank_descending {A} (rank : A -> Z) (a b : A) : Prop :=
  (rank b <= rank a)%Z.

(** A raw record is a record as the endpoint serves it, before enrichment:
    it has none of the three properties that enrichment adds. *)
Definition raw_record (asteroid : gmap string value) : Prop :=
  asteroid !! "impact" = None
  /\ asteroid !! "torino_scale" = None
  /\ asteroid !! "importance_score" = None.

(** ** Sample records *)

(** Two hazardous bodies of 2 km that score 5, and a faster sentry object
    that scores 8. *)
Definition asteroid_a : gmap string value :=
  {[ "id" := VStr "a"; "estimated_diameter_km_max" := VNum 2;
     "relative_velocity_km_s" := VNum 10; "miss_distance_au" := VNum 0.5;
     "is_potentially_hazardous_asteroid" := VBool true;
     "is_sentry_object" := VBool false ]}.

Definition asteroid_b : gmap string value :=
  <["id" := VStr "b"]> asteroid_a.

Definition asteroid_c : gmap string value :=
  {[ "id" := VStr "c"; "estimated_diameter_km_max" := VNum 2;
     "relative_velocity_km_s" := VNum 30; "miss_distance_au" := VNum 0.5;
     "is_potentially_hazardous_asteroid" := VBool false;
     "is_sentry_object" := VBool true ]}.

(** A record without a diameter, and one whose diameter is negative. *)
Definition asteroid_without_diameter : gmap string value :=
  {[ "id" := VStr "x"; "relative_velocity_km_s" := VNum 20;
     "miss_distance_au" := VNum 0.5;
     "is_potentially_hazardous_asteroid" := VBool false;
     "is_sentry_object" := VBool false ]}.

Definition asteroid_negative_diameter : gmap string value :=
  <["estimated_diameter_km_max" := VNum (-1)]> asteroid_without_diameter.

(** A record that already carries an importance score (of 99), as the
    records of the [AsteroidData] interface do. *)
Definition asteroid_scored : gmap string value :=
  <["importance_score" := VNum 99]> asteroid_a.

(** ** The view

    What the component derives from the loaded records: the records shown,
    the risk badge, the rings and the place of each record on them, and the
    impact trajectories. *)

(** [x >= y] on numbers. *)
Definition number_ge (x y : float) : bool := y <=? x.

(** [Math.max(x, y)]: NaN if either argument is NaN, and +0 is above -0. *)
Definition Math_max (x y : float) : float :=
  if is_nan x || is_nan y then nan
  else if x <? y then y
  else if y <? x then x
  else if get_sign x then y else x.

(** [array.slice(0, end)] for an integer [end]; a negative [end] counts back
    from the end of the array. *)
Definition slice_from_start {A} (array : list A) (end_ : Z) : list A :=
  let len := Z.of_nat (length array) in
  let final := if (end_ <? 0)%Z then Z.max (len + end_) 0 else Z.min end_ len in
  take (Z.to_nat final) array.

(** [asteroidData.slice(0, maxAsteroids)]; the slider sets [maxAsteroids] to
    an integer. *)
Definition visibleAsteroids (asteroidData : list (gmap string value)) (maxAsteroids : Z)
    : list (gmap string value) :=
  slice_from_start asteroidData maxAsteroids.

Section View.

Variable StringToNumber : string -> float.

Definition getRiskLevel (asteroid : gmap string value) : string :=
  if ToBoolean (asteroid !! "is_sentry_object") then "CRITICAL"
  else if ToBoolean (asteroid !! "is_potentially_hazardous_asteroid") then "HIGH"
  else if ToNumber StringToNumber (asteroid !! "importance_score") >? 6 then "MODERATE"
  else "LOW".

Definition getRiskColor (level : string) : string :=
  if String.eqb level "CRITICAL" then "text-red-100 bg-red-900"
  else if String.eqb level "HIGH" then "text-orange-100 bg-orange-900"
  else if String.eqb level "MODERATE" then "text-yellow-100 bg-yellow-900"
  else "text-emerald-100 bg-emerald-900".

(** *** Rings

    The records shown are distinct objects (each one is the object literal
    that the callback of [data.map] made), and [includes] and [indexOf]
    compare objects by identity: an object is its record together with its
    position in [visibleAsteroids], which identifies it. *)

Definition object : Type := nat * gmap string value.

Definition objects (array : list (gmap string value)) : list object :=
  imap pair array.

Definition same_object (a b : object) : bool := Nat.eqb (fst a) (fst b).

Definition includes (array : list object) (a : object) : bool :=
  existsb (same_object a) array.

(** The first index of [a], or -1. *)
Fixpoint indexOf (array : list object) (a : object) : Z :=
  match array with
  | [] => (-1)%Z
  | b :: rest =>
      if same_object a b then 0%Z
      else let i := indexOf rest a in
           if (i <? 0)%Z then (-1)%Z else (i + 1)%Z
  end.

(** Lengths and indices are integers, on which [Math.ceil(n / k)] and
    [Math.floor(n / k)] are the rounded quotients. *)
Definition ceil_div (n k : Z) : Z := (- ((- n) / k))%Z.
Definition floor_div (n k : Z) : Z := (n / k)%Z.

Record ring := {
  distance : Z;
  type : string;
  color : Z;
  opacity : float
}.

Definition maxAsteroidsPerRing : Z := 5.
Definition baseDistance : Z := 15.
Definition ringGap : Z := 12.

(** [a.is_sentry_object || a.torino_scale >= 3] *)
Definition isCritical (a : object) : bool :=
  ToBoolean (snd a !! "is_sentry_object")
  || number_ge (ToNumber StringToNumber (snd a !! "torino_scale")) 3.

(** [a.is_potentially_hazardous_asteroid || a.torino_scale >= 1] *)
Definition isHazardous (a : object) : bool :=
  ToBoolean (snd a !! "is_potentially_hazardous_asteroid")
  || number_ge (ToNumber StringToNumber (snd a !! "torino_scale")) 1.

Definition criticalAsteroids (visible : list object) : list object :=
  List.filter isCritical visible.

Definition hazardousAsteroids (visible : list object) : list object :=
  List.filter
    (fun a => negb (includes (criticalAsteroids visible) a) && isHazardous a)
    visible.

Definition regularAsteroids (visible : list object) : list object :=
  List.filter
    (fun a => negb (includes (criticalAsteroids visible) a)
              && negb (includes (hazardousAsteroids visible) a))
    visible.

(** One [for] loop: [count] rings of one type pushed behind [rings], each
    [ringGap] further out than the one before. *)
Fixpoint push_rings (count : nat) (type : string) (color : Z) (opacity : float)
    (rings : list ring) (currentDistance : Z) : list ring * Z :=
  match count with
  | O => (rings, currentDistance)
  | S count' =>
      push_rings count' type color opacity
        (rings ++ [ {| distance := currentDistance; type := type;
                       color := color; opacity := opacity |} ])
        (currentDistance + ringGap)%Z
  end.

(** The [rings] of [calculateDynamicRings]. *)
Definition calculateDynamicRings (visible : list object) : list ring :=
  let criticalRings :=
    Z.max 1 (ceil_div (Z.of_nat (length (criticalAsteroids visible))) maxAsteroidsPerRing) in
  let hazardousRings :=
    Z.max 0 (ceil_div (Z.of_nat (length (hazardousAsteroids visible))) maxAsteroidsPerRing) in
  let regularRings :=
    Z.max 0 (ceil_div (Z.of_nat (length (regularAsteroids visible))) maxAsteroidsPerRing) in
  let rings : list ring := [] in
  let currentDistance := baseDistance in
  let '(rings, currentDistance) :=
    push_rings (Z.to_nat criticalRings) "critical" 0xff4444 0.2 rings currentDistance in
  let '(rings, currentDistance) :=
    push_rings (Z.to_nat hazardousRings) "hazardous" 0xff8844 0.15 rings currentDistance in
  let '(rings, currentDistance) :=
    push_rings (Z.to_nat regularRings) "regular" 0x888888 0.1 rings currentDistance in
  rings.

(** [rings[ringIndex]] *)
Definition ring_at (rings : list ring) (ringIndex : Z) : option ring :=
  if (ringIndex <? 0)%Z then None else rings !! Z.to_nat ringIndex.

(** What the body of [visibleAsteroids.forEach] settles for one record
    before it builds the mesh. *)
Record placement := {
  ringIndex : Z;
  onRing : ring;
  asteroidIndexInRing : Z;
  totalInThisRing : Z;
  originalScale : float;
  originalColor : Z;
  originalEmissive : Z
}.

(** The body ends with a mesh, returns early because the ring is missing, or
    throws a [TypeError]. *)
Inductive outcome :=
| Placed (p : placement)
| Skipped
| Threw.

(** [diameterKm.toFixed(2)] is a method of numbers only: on any other value,
    [undefined] included, the call is a [TypeError]. *)
Definition has_toFixed (v : option value) : bool :=
  match v with
  | Some (VNum _) => true
  | _ => false
  end.

(** Where the first hazardous and the first regular record go. *)
Definition hazardousRingIndex (visible : list object) : Z :=
  if (Z.of_nat (length (criticalAsteroids visible)) >? 0)%Z
  then ceil_div (Z.of_nat (length (criticalAsteroids visible))) maxAsteroidsPerRing
  else 0%Z.

Definition regularRingIndex (visible : list object) : Z :=
  (hazardousRingIndex visible +
   (if (Z.of_nat (length (hazardousAsteroids visible)) >? 0)%Z
    then ceil_div (Z.of_nat (length (hazardousAsteroids visible))) maxAsteroidsPerRing
    else 0))%Z.

(** [ringIndex], [asteroidList] and [localIndex] of a record. *)
Definition ring_position (visible : list object) (asteroid : object)
    : Z * list object * Z :=
  if includes (criticalAsteroids visible) asteroid then
    (floor_div (indexOf (criticalAsteroids visible) asteroid) maxAsteroidsPerRing,
     criticalAsteroids visible,
     indexOf (criticalAsteroids visible) asteroid)
  else if includes (hazardousAsteroids visible) asteroid then
    ((hazardousRingIndex visible
      + floor_div (indexOf (hazardousAsteroids visible) asteroid) maxAsteroidsPerRing)%Z,
     hazardousAsteroids visible,
     indexOf (hazardousAsteroids visible) asteroid)
  else
    ((regularRingIndex visible
      + floor_div (indexOf (regularAsteroids visible) asteroid) maxAsteroidsPerRing)%Z,
     regularAsteroids visible,
     indexOf (regularAsteroids visible) asteroid).

Definition mesh_size (diameterKm : float) : float :=
  if diameterKm >? 20 then JS.Math_min (diameterKm * 0.08) 5
  else if diameterKm >? 5 then Math_max (diameterKm * 0.15) 1.0
  else if diameterKm >? 1 then Math_max (diameterKm * 0.3) 0.8
  else Math_max (diameterKm * 1.0) 0.8.

(** [color] and [emissive]; the first three branches log
    [diameterKm.toFixed(2)], and [None] stands for the [TypeError] of that
    call. *)
Definition mesh_colors (asteroid : gmap string value) : option (Z * Z) :=
  let diameter := asteroid !! "estimated_diameter_km_max" in
  let diameterKm := ToNumber StringToNumber diameter in
  if ToBoolean (asteroid !! "is_sentry_object") then
    if has_toFixed diameter then Some (0xff3333, 0x441111)%Z else None
  else if ToBoolean (asteroid !! "is_potentially_hazardous_asteroid") then
    if has_toFixed diameter then Some (0xff8800, 0x221100)%Z else None
  else if diameterKm >? 10 then
    if has_toFixed diameter then Some (0xffdd00, 0x332200)%Z else None
  else if diameterKm >? 1 then Some (0xeeeeee, 0x111111)%Z
  else Some (0xdddddd, 0x111111)%Z.

Definition place (visible : list object) (asteroid : object) : outcome :=
  let rings := calculateDynamicRings visible in
  let '(ringIndex, asteroidList, localIndex) := ring_position visible asteroid in
  match ring_at rings ringIndex with
  | None => Skipped
  | Some ring =>
      let diameterKm :=
        ToNumber StringToNumber (snd asteroid !! "estimated_diameter_km_max") in
      let size := mesh_size diameterKm in
      let asteroidIndexInRing := Z.rem localIndex maxAsteroidsPerRing in
      let totalInThisRing :=
        Z.min maxAsteroidsPerRing
          (Z.of_nat (length asteroidList)
           - floor_div localIndex maxAsteroidsPerRing * maxAsteroidsPerRing)%Z in
      match mesh_colors (snd asteroid) with
      | None => Threw
      | Some (color, emissive) =>
          Placed {| ringIndex := ringIndex; onRing := ring;
                    asteroidIndexInRing := asteroidIndexInRing;
                    totalInThisRing := totalInThisRing; originalScale := size;
                    originalColor := color; originalEmissive := emissive |}
      end
  end.

(** [visibleAsteroids.forEach]: the placements in order, up to the first
    record on which the body throws. *)
Fixpoint forEach_place (visible : list object) (rest : list object)
    : list placement * bool :=
  match rest with
  | [] => ([], false)
  | asteroid :: rest' =>
      match place visible asteroid with
      | Threw => ([], true)
      | Skipped => forEach_place visible rest'
      | Placed p =>
          let '(placed, threw) := forEach_place visible rest' in (p :: placed, threw)
      end
  end.

(** The numbers of rings of the three types. *)
Definition criticalRings (visible : list object) : Z :=
  Z.max 1 (ceil_div (Z.of_nat (length (criticalAsteroids visible))) maxAsteroidsPerRing).

Definition hazardousRings (visible : list object) : Z :=
  ceil_div (Z.of_nat (length (hazardousAsteroids visible))) maxAsteroidsPerRing.

Definition regularRings (visible : list object) : Z :=
  ceil_div (Z.of_nat (length (regularAsteroids visible))) maxAsteroidsPerRing.

End View.

(** Objects that are told apart by their identity. *)
Definition distinct (l : list object) : Prop :=
  forall a b, In a l -> In b l -> fst a = fst b -> a = b.

(** *** Impact trajectories *)

(** The own properties of [zoneCoordinates]: latitude and longitude. *)
Definition zoneCoordinates : gmap string (float * float) :=
  list_to_map
    [ ("Pacific Ocean", (0, -150)); ("Coastal Japan", (36, 138));
      ("Atlantic Ocean", (30, -30)); ("European Coast", (50, 10));
      ("African Coast", (0, 15)); ("Indian Ocean", (-20, 80));
      ("Southeast Asia", (10, 110)); ("Global Impact", (0, 0));
      ("Mass Extinction Event", (0, 0)); ("Continental Devastation", (40, -100));
      ("Regional Damage", (35, 25)); ("Mediterranean Sea", (35, 18));
      ("Southern Europe", (45, 15)); ("South China Sea", (15, 115));
      ("Philippines", (12, 122)); ("Arabian Sea", (18, 65));
      ("Western India", (20, 75)); ("Bay of Bengal", (15, 90));
      ("Caribbean Sea", (15, -75)); ("North Atlantic", (45, -30));
      ("Central Pacific", (5, -160)); ("Hawaiian Islands", (21, -157));
      ("Remote Ocean", (-30, 150)); ("Northern Pacific", (50, -160));
      ("Alaska", (64, -153)); ("South Atlantic", (-30, -15));
      ("Brazilian Coast", (-15, -45)); ("Arctic Ocean", (80, 0));
      ("Red Sea", (20, 38)); ("Middle East", (28, 47));
      ("Eastern Pacific", (-10, -120)); ("South America West Coast", (-20, -75));
      ("Global Devastation", (0, 0)); ("Indonesia", (-2, 118));
      ("North Sea", (56, 3)); ("Gulf of Mexico", (25, -90));
      ("Southern Ocean", (-50, 0)); ("Tasman Sea", (-35, 160));
      ("Black Sea", (43, 35)); ("Eastern Europe", (50, 30));
      ("Western Pacific", (25, 140)); ("Japan", (36, 138));
      ("Korea", (37, 127)); ("Central Atlantic", (10, -25));
      ("Western Africa", (10, -10)); ("Baltic Sea", (58, 20));
      ("Global Extinction Event", (0, 0)); ("Bering Sea", (58, -175));
      ("North America", (45, -100)); ("Canada", (60, -110));
      ("Multiple Continents", (0, 0)) ].

(** The properties that every object literal inherits; their values are
    functions (an object for [__proto__]), which are truthy and have no
    [lat] and no [lng]. *)
Definition Object_prototype : list string :=
  [ "constructor"; "__defineGetter__"; "__defineSetter__"; "hasOwnProperty";
    "__lookupGetter__"; "__lookupSetter__"; "isPrototypeOf"; "propertyIsEnumerable";
    "toString"; "valueOf"; "__proto__"; "toLocaleString" ].

(** [zoneCoordinates[zone]] when it is truthy, as the operands that
    [coords.lat] and [coords.lng] make. *)
Definition coords_of (zone : string) : option (float * float) :=
  match zoneCoordinates !! zone with
  | Some coords => Some coords
  | None => if bool_decide (zone ∈ Object_prototype) then Some (nan, nan) else None
  end.

(** The children of the trajectory group, by what they are built around:
    the angles of the impact point. *)
Inductive child :=
| TrajectoryLine (phi theta : float)
| ImpactMarker (phi theta : float)
| PulseRing (phi theta : float).

(** [child.type] *)
Definition child_type (c : child) : string :=
  match c with
  | TrajectoryLine _ _ => "Line"
  | ImpactMarker _ _ | PulseRing _ _ => "Mesh"
  end.

(** The children of the group that [createImpactTrajectory] returns. *)
Definition createImpactTrajectory (riskZones : list string) : list child :=
  flat_map
    (fun zone =>
       match coords_of zone with
       | Some (lat, lng) =>
           let phi := (90 - lat) * (JS.Math_PI / 180) in
           let theta := (lng + 180) * (JS.Math_PI / 180) in
           [TrajectoryLine phi theta; ImpactMarker phi theta; PulseRing phi theta]
       | None => []
       end)
    riskZones.

(** The test of the animation loop:
    [child.type === 'Mesh' && childIndex % 3 === 2]. *)
Definition pulses (c : child) (childIndex : nat) : bool :=
  String.eqb (child_type c) "Mesh" && (childIndex mod 3 =? 2)%nat.

(** ** More sample records *)

(** A small body without flags. *)
Definition asteroid_e : gmap string value :=
  {[ "id" := VStr "e"; "estimated_diameter_km_max" := VNum 0.1;
     "relative_velocity_km_s" := VNum 10; "miss_distance_au" := VNum 0.5;
     "is_potentially_hazardous_asteroid" := VBool false;
     "is_sentry_object" := VBool false ]}.

(** A sentry object whose record has no diameter. *)
Definition asteroid_sentry_without_diameter : gmap string value :=
  <["is_sentry_object" := VBool true]> asteroid_without_diameter.

(** Records with just what the rings read: one on the sentry list, a
    hazardous one and one without flags; the array of the three, and the
    array without the first. *)
Definition shown_sentry : gmap string value :=
  {[ "is_sentry_object" := VBool true; "estimated_diameter_km_max" := VNum 2 ]}.

Definition shown_hazardous : gmap string value :=
  {[ "is_potentially_hazardous_asteroid" := VBool true;
     "estimated_diameter_km_max" := VNum 0.1 ]}.

Definition shown_regular : gmap string value :=
  {[ "estimated_diameter_km_max" := VNum 0.1 ]}.

Definition shown_three : list (gmap string value) :=
  [shown_sentry; shown_hazardous; shown_regular].

Definition shown_two : list (gmap string value) :=
  [shown_hazardous; shown_regular].

(** Where the hazardous record goes in either array. *)
Definition placement_of_three : placement :=
  {| ringIndex := 1;
     onRing := {| distance := 27; type := "hazardous"; color := 0xff8844;
                  opacity := 0.15 |};
     asteroidIndexInRing := 0; totalInThisRing := 1; originalScale := 0.8;
     originalColor := 0xff8800; originalEmissive := 0x221100 |}.

Definition placement_of_two : placement :=
  {| ringIndex := 0;
     onRing := {| distance := 15; type := "critical"; color := 0xff4444;
                  opacity := 0.2 |};
     asteroidIndexInRing := 0; totalInThisRing := 1; originalScale := 0.8;
     originalColor := 0xff8800; originalEmissive := 0x221100 |}.

(** * Properties *)

(** ** The order on numbers *)

Lemma SFltb_SFleb_trans (c x y : spec_float) :
  SFltb c x = true -> SFleb x y = true -> SFltb c y = true.
Proof.
  unfold SFltb, SFleb.
  destruct c as [sc|sc| |sc mc ec], x as [sx|sx| |sx mx ex], y as [sy|sy| |sy my ey];
    simpl; try discriminate; try (destruct sc, sx, sy; simpl; congruence).
  all: try (destruct sc; simpl; try discriminate;
            destruct sx; simpl; try discriminate;
            destruct sy; simpl; congruence).
  change (PosDef.Pos.compare_cont Eq) with Pos.compare.
  destruct sc, sx, sy; simpl; try congruence;
    destruct (Z.compare_spec ec ex), (Z.compare_spec ex ey), (Z.compare_spec ec ey);
    try congruence; try lia; subst;
    destruct (Pos.compare_spec mc mx), (Pos.compare_spec mx my), (Pos.compare_spec mc my);
    simpl; try congruence; try lia.
Qed.

(** A threshold that [x] exceeds is exceeded by everything at or above [x]. *)
Lemma gt_mono (c x y : float) :
  (x <=? y) = true -> (x >? c) = true -> (y >? c) = true.
Proof.
  unfold JS.gt. rewrite !FloatAxioms.ltb_spec, FloatAxioms.leb_spec. intros Hle Hlt.
  exact (SFltb_SFleb_trans _ _ _ Hlt Hle).
Qed.

(** Two numbers are different when a test tells them apart. *)
Lemma float_neq (x y : float) : (x =? y) = false -> (y =? y) = true -> x <> y.
Proof. intros Hxy Hyy ->. congruence. Qed.

Ltac split_ifs :=
  repeat match goal with
    | |- context [if ?b then _ else _] => destruct b eqn:?
    end.

Ltac in_list := simpl; repeat first [left; reflexivity | right].

(** ** The Torino-like scale *)

(** C4: [calculateTorinoScale] is the decision table of the design document,
    rows tried in order with strict comparisons; an energy or a diameter that
    is exactly on a threshold does not pass it and gets the bracket below: a
    sentry object at exactly 1e6 megatons is rated 9, at 1e5 it is rated 8, at
    1e4 it is rated 7, at 1e3 it is rated by its diameter, and a diameter of
    exactly 1 km is rated as small. *)
Theorem calculateTorinoScale_decision_table :
  (forall d e isPHA isSentry,
      calculateTorinoScale d e isPHA isSentry = classifyTorinoScale d e isPHA isSentry)
  /\ (forall d isPHA, calculateTorinoScale d 1e6 isPHA true = 9)
  /\ (forall d isPHA, calculateTorinoScale d 1e5 isPHA true = 8)
  /\ (forall d isPHA, calculateTorinoScale d 1e4 isPHA true = 7)
  /\ (forall d isPHA, calculateTorinoScale d 1e3 isPHA true = if d >? 1 then 4 else 3)
  /\ (forall isPHA, calculateTorinoScale 1 1e3 isPHA true = 3)
  /\ (forall d, calculateTorinoScale d 1e5 true false = if d >? 1 then 2 else 1)
  /\ calculateTorinoScale 1 1e5 true false = 1.
Proof.
  repeat apply conj; intros.
  - unfold calculateTorinoScale, classifyTorinoScale, first_match.
    destruct isSentry, isPHA; reflexivity.
  - reflexivity.
  - reflexivity.
  - reflexivity.
  - unfold calculateTorinoScale. cbn. reflexivity.
  - reflexivity.
  - unfold calculateTorinoScale. cbn. reflexivity.
  - reflexivity.
Qed.

(** Every value of the scale is among 0, 1, 2, 3, 4, 7, 8, 9 and 10. *)
Lemma calculateTorinoScale_values d e isPHA isSentry :
  In (calculateTorinoScale d e isPHA isSentry) [0; 1; 2; 3; 4; 7; 8; 9; 10].
Proof.
  unfold calculateTorinoScale.
  destruct isSentry, isPHA; split_ifs; in_list.
Qed.

(** C10: [calculateTorinoScale] never returns 5 or 6; its values are 0, 1, 2,
    3, 4, 7, 8, 9 and 10, and each of these is returned on some input. *)
Theorem calculateTorinoScale_never_5_or_6 :
  (forall d e isPHA isSentry,
      In (calculateTorinoScale d e isPHA isSentry) [0; 1; 2; 3; 4; 7; 8; 9; 10]
      /\ calculateTorinoScale d e isPHA isSentry <> 5
      /\ calculateTorinoScale d e isPHA isSentry <> 6)
  /\ Forall (fun scale => exists d e isPHA isSentry,
                 calculateTorinoScale d e isPHA isSentry = scale)
       [0; 1; 2; 3; 4; 7; 8; 9; 10].
Proof.
  split.
  - intros d e isPHA isSentry.
    pose proof (calculateTorinoScale_values d e isPHA isSentry) as Hin.
    split; [exact Hin|].
    simpl in Hin.
    split; intuition (subst; match goal with
                             | H : ?x = _, H' : _ = ?x |- _ =>
                                 rewrite <- H' in H;
                                 eapply float_neq in H; [exact H|reflexivity..]
                             end).
  - repeat constructor.
    + exists 0, 0, false, false. reflexivity.
    + exists 0, 0, true, false. reflexivity.
    + exists 2, 0, true, false. reflexivity.
    + exists 0, 0, false, true. reflexivity.
    + exists 2, 0, false, true. reflexivity.
    + exists 0, 2000, false, true. reflexivity.
    + exists 0, 20000, false, true. reflexivity.
    + exists 0, 200000, false, true. reflexivity.
    + exists 0, 2000000, false, true. reflexivity.
Qed.

(** C7: for a fixed diameter and fixed flags, [calculateTorinoScale] is
    non-decreasing in the energy: whenever [e1 <= e2], the scale at [e1] is at
    most the scale at [e2].  The energies are arbitrary numbers, so the
    thresholds and their neighbours on either side are included. *)
Theorem calculateTorinoScale_monotone_in_energy d isPHA isSentry e1 e2 :
  (e1 <=? e2) = true ->
  (calculateTorinoScale d e1 isPHA isSentry
     <=? calculateTorinoScale d e2 isPHA isSentry) = true.
Proof.
  intros Hle. unfold calculateTorinoScale.
  destruct isSentry, isPHA;
    repeat match goal with
      | |- context [e1 >? ?c] =>
          destruct (e1 >? c) eqn:?;
          [ rewrite (gt_mono c e1 e2 Hle) by assumption | ]
      end;
    split_ifs; reflexivity.
Qed.

(** The scale does not drop across the threshold of the highest bracket:
    one megaton above 1e6 is rated at least as high as 1e6 itself. *)
Lemma calculateTorinoScale_monotone_at_1e6 :
  (1000000 <=? 1000001) = true
  /\ (calculateTorinoScale 2 1000000 false true
        <=? calculateTorinoScale 2 1000001 false true) = true.
Proof.
  split; [reflexivity|].
  apply (calculateTorinoScale_monotone_in_energy 2 false true 1000000 1000001).
  reflexivity.
Defined.

(** ** Risk zones *)

(** C5: [generateRiskZones] returns one of the six literal label lists, the
    one that the thresholds 100000, 10000, 1000, 100, 10 select with strict
    comparisons: the three global labels above 100000, and "Remote Ocean"
    alone for an energy at or below 10; the list is never empty. *)
Theorem generateRiskZones_label_sets e isPHA isSentry :
  generateRiskZones e isPHA isSentry = selectRiskZones e
  /\ In (generateRiskZones e isPHA isSentry) riskZoneLabelSets
  /\ generateRiskZones e isPHA isSentry <> []
  /\ ((e >? 100000) = true ->
      generateRiskZones e isPHA isSentry
      = ["Global Extinction Event"; "Mass Extinction Event"; "Global Devastation"])
  /\ ((e <=? 10) = true -> generateRiskZones e isPHA isSentry = ["Remote Ocean"]).
Proof.
  repeat apply conj.
  - unfold generateRiskZones, selectRiskZones. cbn. reflexivity.
  - unfold generateRiskZones. split_ifs; in_list.
  - unfold generateRiskZones. split_ifs; discriminate.
  - intros Hgt. unfold generateRiskZones. rewrite Hgt. reflexivity.
  - intros Hle. unfold generateRiskZones.
    repeat match goal with
      | |- context [e >? ?c] =>
          destruct (e >? c) eqn:Hc;
          [ apply (gt_mono c e 10 Hle) in Hc; discriminate Hc | clear Hc ]
      end.
    reflexivity.
Qed.

(** At 200000 megatons the labels are the global ones, at 5 megatons the
    remote ocean alone. *)
Lemma generateRiskZones_extremes :
  generateRiskZones 200000 true false
  = ["Global Extinction Event"; "Mass Extinction Event"; "Global Devastation"]
  /\ generateRiskZones 5 true false = ["Remote Ocean"].
Proof.
  split.
  - apply (generateRiskZones_label_sets 200000 true false). reflexivity.
  - apply (generateRiskZones_label_sets 5 true false). reflexivity.
Defined.

(** C6: the two flags have no influence on the labels: for every energy, any
    two assignments of [isPHA] and [isSentry] give the same list. *)
Theorem generateRiskZones_ignores_flags e isPHA1 isSentry1 isPHA2 isSentry2 :
  generateRiskZones e isPHA1 isSentry1 = generateRiskZones e isPHA2 isSentry2.
Proof.
  destruct isPHA1, isSentry1, isPHA2, isSentry2; reflexivity.
Qed.

(** ** The importance score *)

(** C8: on all inputs, the extreme ones included, [calculateImportanceScore]
    is an integer between 0 and 10: it is the sum of the diameter, velocity,
    proximity and flag points, cut off at 10. *)
Theorem calculateImportanceScore_range d v missAU isPHA isSentry :
  In (calculateImportanceScore d v missAU isPHA isSentry) zeroToTen
  /\ (0 <=? calculateImportanceScore d v missAU isPHA isSentry) = true
  /\ (calculateImportanceScore d v missAU isPHA isSentry <=? 10) = true
  /\ calculateImportanceScore d v missAU isPHA isSentry
     = JS.Math_min
         (diameterPoints d + velocityPoints v + proximityPoints missAU
          + flagPoints isPHA isSentry) 10.
Proof.
  unfold calculateImportanceScore, diameterPoints, velocityPoints, proximityPoints,
    flagPoints, first_match, zeroToTen.
  destruct isSentry, isPHA;
    destruct (d >? 10), (d >? 1), (d >? 0.5), (v >? 25), (v >? 15),
      (JS.lt missAU 0.05), (JS.lt missAU 0.2);
    (repeat apply conj; [in_list | reflexivity..]).
Qed.

(** A body a million kilometres wide at a million kilometres per second,
    grazing the Earth and on the sentry list, scores the maximum, 10. *)
Lemma calculateImportanceScore_extreme :
  calculateImportanceScore 1e6 1e6 0 true true = 10.
Proof. reflexivity. Qed.

(** ** Impact energy *)

(** NaN absorbs multiplication and division. *)
Lemma nan_mul_l x : nan * x = nan.
Proof. rewrite <- (SF2Prim_Prim2SF (nan * x)), FloatAxioms.mul_spec. reflexivity. Qed.

Lemma nan_mul_r x : x * nan = nan.
Proof.
  rewrite <- (SF2Prim_Prim2SF (x * nan)), FloatAxioms.mul_spec.
  change (Prim2SF nan) with S754_nan.
  destruct (Prim2SF x); reflexivity.
Qed.

Lemma nan_div_l x : nan / x = nan.
Proof. rewrite <- (SF2Prim_Prim2SF (nan / x)), FloatAxioms.div_spec. reflexivity. Qed.

(** A power of NaN with a non-zero exponent is NaN, whatever the engine. *)
Lemma exponentiate_nan pow_approx exponent :
  (exponent =? 0) = false -> JS.exponentiate pow_approx nan exponent = nan.
Proof.
  intros Hexp. unfold JS.exponentiate. rewrite Hexp.
  destruct (is_nan exponent); reflexivity.
Qed.

(** The energy of a body 1 km wide at 20 km/s is not 3.1329e5 megatons: the
    formula gives 62571.555..., a fifth of that. *)
Lemma calculateImpactEnergy_1_20_is_not_313290 :
  calculateImpactEnergy JS.pow_square_cube 1 20 = 62571.555401326339
  /\ approximately (calculateImpactEnergy JS.pow_square_cube 1 20) 3.1329e5 = false.
Proof. split; reflexivity. Qed.

(** C3, amended: [calculateImpactEnergy] applied to 1.0 km and 20.0 km/s
    returns 62571.555401326339, that is about 6.2572e4 megatons and not
    3.1329e5, on every engine whose power is exact on the cube of the radius
    500 and the square of the speed 20000: half the mass of the sphere at
    2500 kg/m3 times the squared speed, divided by 4.184e15. *)
Theorem calculateImpactEnergy_1_20 pow_approx :
  pow_approx 500 3 = 125000000 ->
  pow_approx 20000 2 = 400000000 ->
  calculateImpactEnergy pow_approx 1 20
  = 0.5 * ((4 / 3) * JS.Math_PI * 125000000 * 2500) * 400000000 / 4.184e15
  /\ calculateImpactEnergy pow_approx 1 20 = 62571.555401326339
  /\ approximately (calculateImpactEnergy pow_approx 1 20) 6.2572e4 = true
  /\ approximately (calculateImpactEnergy pow_approx 1 20) 3.1329e5 = false.
Proof.
  intros Hcube Hsquare.
  assert (calculateImpactEnergy pow_approx 1 20 = 62571.555401326339) as Hvalue.
  { unfold calculateImpactEnergy, JS.exponentiate. cbn.
    change (1 * 1000 / 2) with 500. change (20 * 1000) with 20000.
    rewrite Hcube, Hsquare. reflexivity. }
  rewrite Hvalue. repeat apply conj; reflexivity.
Qed.

(** The repeated multiplication is such an engine. *)
Lemma calculateImpactEnergy_1_20_by_multiplication :
  calculateImpactEnergy JS.pow_square_cube 1 20 = 62571.555401326339.
Proof.
  apply (calculateImpactEnergy_1_20 JS.pow_square_cube); reflexivity.
Defined.

(** ** Sorting *)

Section ArraySort.

Context {A : Type} (comparefn : A -> A -> float).

Lemma sort_insert_Permutation x l :
  Permutation (sort_insert comparefn x l) (x :: l).
Proof.
  induction l as [|y l IH]; simpl; [reflexivity|].
  destruct (comparefn x y >? 0); [|reflexivity].
  rewrite IH. apply perm_swap.
Qed.

Lemma Array_sort_Permutation l : Permutation (Array_sort comparefn l) l.
Proof.
  induction l as [|x l IH]; simpl; [reflexivity|].
  rewrite sort_insert_Permutation. now constructor.
Qed.

Lemma Array_sort_Forall (P : A -> Prop) l :
  Forall P l -> Forall P (Array_sort comparefn l).
Proof.
  intros Hl. eapply Permutation_Forall; [|exact Hl].
  symmetry. apply Array_sort_Permutation.
Qed.

(** The comparator orders by decreasing rank on the elements that have one. *)
Variable rank : A -> Z.
Variable ranked : A -> Prop.
Hypothesis comparefn_rank :
  forall x y, ranked x -> ranked y -> (comparefn x y >? 0) = (rank x <? rank y)%Z.

Lemma sort_insert_sorted x l :
  ranked x -> Forall ranked l ->
  StronglySorted (rank_descending rank) l ->
  StronglySorted (rank_descending rank) (sort_insert comparefn x l).
Proof.
  intros Hx Hl Hsorted.
  induction Hsorted as [|y l Hsorted IH Hy]; simpl.
  - repeat constructor.
  - inversion Hl as [|? ? Hry Hrl]; subst.
    rewrite (comparefn_rank x y Hx Hry).
    destruct (Z.ltb_spec (rank x) (rank y)) as [Hlt|Hge].
    + constructor; [now apply IH|].
      eapply Permutation_Forall; [symmetry; apply sort_insert_Permutation|].
      constructor; [unfold rank_descending; lia|exact Hy].
    + constructor; [now constructor|].
      constructor; [exact Hge|].
      eapply Forall_impl; [exact Hy|].
      unfold rank_descending. intros z Hz. lia.
Qed.

Lemma Array_sort_sorted l :
  Forall ranked l -> StronglySorted (rank_descending rank) (Array_sort comparefn l).
Proof.
  induction 1 as [|x l Hx Hl IH]; simpl; [constructor|].
  apply sort_insert_sorted; auto using Array_sort_Forall.
Qed.

(** A bucket is a test that only elements of one rank pass. *)
Variable bucket : A -> bool.
Hypothesis bucket_rank :
  forall x y, ranked x -> ranked y ->
    bucket x = true -> bucket y = true -> rank x = rank y.

Lemma sort_insert_bucket x l :
  ranked x -> Forall ranked l ->
  List.filter bucket (sort_insert comparefn x l) = List.filter bucket (x :: l).
Proof.
  intros Hx. induction 1 as [|y l Hy Hl IH]; [reflexivity|].
  cbn [sort_insert]. rewrite (comparefn_rank x y Hx Hy).
  destruct (Z.ltb_spec (rank x) (rank y)) as [Hlt|Hge]; [|reflexivity].
  cbn [List.filter] in *. rewrite IH.
  destruct (bucket x) eqn:Hbx, (bucket y) eqn:Hby; try reflexivity.
  pose proof (bucket_rank x y Hx Hy Hbx Hby). lia.
Qed.

Lemma Array_sort_bucket l :
  Forall ranked l ->
  List.filter bucket (Array_sort comparefn l) = List.filter bucket l.
Proof.
  induction 1 as [|x l Hx Hl IH]; [reflexivity|].
  cbn [Array_sort foldr]. fold (Array_sort comparefn l).
  rewrite sort_insert_bucket by auto using Array_sort_Forall.
  cbn [List.filter]. now rewrite IH.
Qed.

End ArraySort.

(** Equality of numbers ([===]) is transitive. *)
Lemma SFeqb_trans (x y s : spec_float) :
  SFeqb x s = true -> SFeqb y s = true -> SFeqb x y = true.
Proof.
  unfold SFeqb.
  destruct x as [sx|sx| |sx mx ex], y as [sy|sy| |sy my ey], s as [ss|ss| |ss ms es];
    simpl; try discriminate; try (destruct sx, sy, ss; simpl; congruence).
  change (PosDef.Pos.compare_cont Eq) with Pos.compare.
  destruct sx, sy, ss; simpl; try congruence;
    destruct (Z.compare_spec ex es), (Z.compare_spec ey es), (Z.compare_spec ex ey);
    try congruence; try lia; subst;
    destruct (Pos.compare_spec mx ms), (Pos.compare_spec my ms), (Pos.compare_spec mx my);
    simpl; try congruence; try lia.
Qed.

Lemma float_eqb_trans (x y s : float) :
  (x =? s) = true -> (y =? s) = true -> (x =? y) = true.
Proof. rewrite !FloatAxioms.eqb_spec. apply SFeqb_trans. Qed.

Lemma StronglySorted_on {A} (good : A -> Prop) (R1 R2 : A -> A -> Prop) l :
  (forall x y, good x -> good y -> R1 x y -> R2 x y) ->
  Forall good l -> StronglySorted R1 l -> StronglySorted R2 l.
Proof.
  intros HR Hgood Hsorted.
  induction Hsorted as [|x l Hsorted IH Hx]; [constructor|].
  inversion Hgood as [|? ? Hgx Hgl]; subst.
  constructor; [now apply IH|].
  clear IH Hsorted. induction Hx as [|y l Hxy Hx IH]; [constructor|].
  inversion Hgl; subst. constructor; auto.
Qed.

Ltac score_cases H :=
  simpl in H;
  repeat (destruct H as [H|H]; [rewrite <- H; clear H|]);
  try contradiction.

(** ** The pipeline *)

Section PipelineFacts.

Variable pow_approx : float -> float -> float.
Variable StringToNumber : string -> float.

Lemma calculateImportanceScore_values d v missAU isPHA isSentry :
  In (calculateImportanceScore d v missAU isPHA isSentry) oneToTen.
Proof.
  unfold calculateImportanceScore, oneToTen.
  destruct isSentry, isPHA;
    destruct (d >? 10), (d >? 1), (d >? 0.5), (v >? 25), (v >? 15),
      (JS.lt missAU 0.05), (JS.lt missAU 0.2); in_list.
Qed.

Lemma enrich_scored asteroid :
  scored StringToNumber (enrich pow_approx StringToNumber asteroid).
Proof.
  unfold scored, importance_score, enrich.
  rewrite lookup_insert_eq. cbn [ToNumber].
  apply calculateImportanceScore_values.
Qed.

Lemma enrichedData_scored data :
  Forall (scored StringToNumber) (enrichedData pow_approx StringToNumber data).
Proof.
  unfold enrichedData. induction data; constructor; auto using enrich_scored.
Qed.

(** On scored records the comparator is positive exactly when the first
    record has the smaller score. *)
Lemma by_importance_rank x y :
  scored StringToNumber x -> scored StringToNumber y ->
  (by_importance StringToNumber x y >? 0)
  = (score_rank StringToNumber x <? score_rank StringToNumber y)%Z.
Proof.
  unfold scored, score_rank, by_importance. intros Hx Hy.
  score_cases Hx; score_cases Hy; reflexivity.
Qed.

Lemma rank_descending_scores x y :
  scored StringToNumber x -> scored StringToNumber y ->
  rank_descending (score_rank StringToNumber) x y ->
  (importance_score StringToNumber y <=? importance_score StringToNumber x) = true.
Proof.
  unfold scored, rank_descending, score_rank. intros Hx Hy.
  score_cases Hx; score_cases Hy; vm_compute; intros Hle;
    first [reflexivity | now elim Hle].
Qed.

Lemma equal_scores_rank s x y :
  scored StringToNumber x -> scored StringToNumber y ->
  (importance_score StringToNumber x =? s) = true ->
  (importance_score StringToNumber y =? s) = true ->
  score_rank StringToNumber x = score_rank StringToNumber y.
Proof.
  intros Hx Hy Hxs Hys.
  pose proof (float_eqb_trans _ _ _ Hxs Hys) as Heq. clear Hxs Hys. revert Heq.
  unfold scored, score_rank in *.
  score_cases Hx; score_cases Hy; vm_compute; congruence.
Qed.

(** Filtering the images is filtering the arguments. *)
Lemma filter_map_comm {A B} (f : A -> B) (P : B -> bool) (l : list A) :
  List.filter P (map f l) = map f (List.filter (fun a => P (f a)) l).
Proof.
  induction l as [|a l IH]; [reflexivity|].
  cbn [map List.filter]. destruct (P (f a)); cbn [map]; now rewrite IH.
Qed.

(** C1: for every array [data] of records, the sorted array holds the
    enrichments of the records of [data] (each once, none lost), in
    descending order of importance score, the score of a record being what
    [calculateImportanceScore] gives on its properties; and the sort is
    stable: for every score, the output records with that score are the
    enrichments of the input records that get this score, in the order that
    these have in [data]. *)
Theorem sortedData_descending_stable data :
  Permutation (sortedData pow_approx StringToNumber data)
              (map (enrich pow_approx StringToNumber) data)
  /\ StronglySorted
       (fun a b =>
          (importance_score StringToNumber b <=? importance_score StringToNumber a) = true)
       (sortedData pow_approx StringToNumber data)
  /\ (forall s,
        List.filter (fun r => importance_score StringToNumber r =? s)
          (sortedData pow_approx StringToNumber data)
        = map (enrich pow_approx StringToNumber)
            (List.filter
               (fun asteroid =>
                  importance_score StringToNumber
                    (enrich pow_approx StringToNumber asteroid) =? s)
               data))
  /\ (forall asteroid,
        importance_score StringToNumber (enrich pow_approx StringToNumber asteroid)
        = calculateImportanceScore
            (ToNumber StringToNumber (asteroid !! "estimated_diameter_km_max"))
            (ToNumber StringToNumber (asteroid !! "relative_velocity_km_s"))
            (ToNumber StringToNumber (asteroid !! "miss_distance_au"))
            (ToBoolean (asteroid !! "is_potentially_hazardous_asteroid"))
            (ToBoolean (asteroid !! "is_sentry_object")))
  /\ asteroidData (fetchAsteroidData pow_approx StringToNumber (Ok data))
     = sortedData pow_approx StringToNumber data.
Proof.
  pose proof (enrichedData_scored data) as Hscored.
  unfold sortedData. repeat apply conj.
  - apply (Array_sort_Permutation (by_importance StringToNumber)
             (enrichedData pow_approx StringToNumber data)).
  - apply (StronglySorted_on (scored StringToNumber)
             (rank_descending (score_rank StringToNumber))).
    + intros x y Hx Hy. apply rank_descending_scores; assumption.
    + apply Array_sort_Forall, Hscored.
    + apply (Array_sort_sorted _ _ (scored StringToNumber)); [|exact Hscored].
      apply by_importance_rank.
  - intros s.
    rewrite (Array_sort_bucket _ (score_rank StringToNumber) (scored StringToNumber)).
    + apply (filter_map_comm (enrich pow_approx StringToNumber)
               (fun r => importance_score StringToNumber r =? s)).
    + apply by_importance_rank.
    + intros x y Hx Hy. apply equal_scores_rank; assumption.
    + exact Hscored.
  - intros asteroid. unfold importance_score, enrich.
    rewrite lookup_insert_eq. reflexivity.
  - reflexivity.
Qed.

(** Records [a] and [b] score 5 and record [c] scores 8: sorting [a, b, c]
    gives [c, a, b]. *)
Lemma sortedData_a_b_c :
  map (importance_score StringToNumber)
      (enrichedData pow_approx StringToNumber [asteroid_a; asteroid_b; asteroid_c])
  = [5; 5; 8]
  /\ map (fun r => r !! "id")
       (sortedData pow_approx StringToNumber [asteroid_a; asteroid_b; asteroid_c])
     = [Some (VStr "c"); Some (VStr "a"); Some (VStr "b")]
  /\ sortedData pow_approx StringToNumber [asteroid_a; asteroid_b; asteroid_c]
     = map (enrich pow_approx StringToNumber) [asteroid_c; asteroid_a; asteroid_b].
Proof. repeat apply conj; vm_compute; reflexivity. Qed.

(** An absent or NaN diameter or speed makes the energy NaN. *)
Lemma calculateImpactEnergy_nan d v :
  d = nan \/ v = nan -> calculateImpactEnergy pow_approx d v = nan.
Proof.
  unfold calculateImpactEnergy.
  intros [-> | ->].
  - change (nan * 1000 / 2) with nan.
    rewrite exponentiate_nan by reflexivity.
    now rewrite nan_mul_r, !nan_mul_l, nan_div_l.
  - change (nan * 1000) with nan.
    rewrite exponentiate_nan by reflexivity.
    now rewrite nan_mul_r, nan_div_l.
Qed.

(** So it does the crater. *)
Lemma calculateCraterSize_nan d v :
  d = nan \/ v = nan -> calculateCraterSize pow_approx d v = nan.
Proof.
  unfold calculateCraterSize.
  intros [-> | ->].
  - change (nan * 20) with nan. apply nan_mul_l.
  - change (nan / 20) with nan.
    rewrite exponentiate_nan by reflexivity. apply nan_mul_r.
Qed.

(** C2, amended: the pipeline has no validation.  A successful response
    never sets the load error, whatever the diameters and speeds of the
    records, and every record is enriched; a record whose diameter or speed
    is absent or not a number is in the result with NaN as its impact energy
    and as its crater size, and with the labels of the lowest bracket. *)
Theorem fetchAsteroidData_does_not_validate data :
  loadError (fetchAsteroidData pow_approx StringToNumber (Ok data)) = None
  /\ length (asteroidData (fetchAsteroidData pow_approx StringToNumber (Ok data)))
     = length data
  /\ (forall asteroid,
        In asteroid data ->
        ToNumber StringToNumber (asteroid !! "estimated_diameter_km_max") = nan
        \/ ToNumber StringToNumber (asteroid !! "relative_velocity_km_s") = nan ->
        In (enrich pow_approx StringToNumber asteroid)
           (asteroidData (fetchAsteroidData pow_approx StringToNumber (Ok data)))
        /\ enrich pow_approx StringToNumber asteroid !! "impact"
           = Some (VImpact nan nan ["Remote Ocean"])).
Proof.
  cbn [fetchAsteroidData try_block asteroidData loadError].
  pose proof (Array_sort_Permutation (by_importance StringToNumber)
                (enrichedData pow_approx StringToNumber data)) as Hperm.
  fold (sortedData pow_approx StringToNumber data) in Hperm.
  repeat apply conj.
  - reflexivity.
  - rewrite (Permutation_length Hperm). unfold enrichedData. apply length_map.
  - intros asteroid Hin Hnan. split.
    + eapply Permutation_in; [symmetry; exact Hperm|].
      unfold enrichedData. now apply in_map.
    + unfold enrich.
      rewrite lookup_insert_ne, lookup_insert_ne, lookup_insert_eq by discriminate.
      rewrite (calculateImpactEnergy_nan _ _ Hnan), (calculateCraterSize_nan _ _ Hnan).
      reflexivity.
Qed.

(** C9: for every raw record, every property of the record is on the
    enriched record with the same value: enrichment only adds the derived
    properties [impact] (impact energy, crater size and risk zones),
    [torino_scale] and [importance_score], with the values that the helpers
    give on the record's properties, and leaves the rest as it is. *)
Theorem enrich_preserves_raw_fields asteroid :
  raw_record asteroid ->
  let diameterKm := ToNumber StringToNumber (asteroid !! "estimated_diameter_km_max") in
  let velocityKmS := ToNumber StringToNumber (asteroid !! "relative_velocity_km_s") in
  let missDistanceAU := ToNumber StringToNumber (asteroid !! "miss_distance_au") in
  let isPHA := ToBoolean (asteroid !! "is_potentially_hazardous_asteroid") in
  let isSentry := ToBoolean (asteroid !! "is_sentry_object") in
  let energyMegatons := calculateImpactEnergy pow_approx diameterKm velocityKmS in
  (forall k v,
      asteroid !! k = Some v ->
      enrich pow_approx StringToNumber asteroid !! k = Some v)
  /\ (forall k,
        k <> "impact" -> k <> "torino_scale" -> k <> "importance_score" ->
        enrich pow_approx StringToNumber asteroid !! k = asteroid !! k)
  /\ dom (enrich pow_approx StringToNumber asteroid)
     = {[ "importance_score"; "torino_scale"; "impact" ]} ∪ dom asteroid
  /\ enrich pow_approx StringToNumber asteroid !! "impact"
     = Some (VImpact energyMegatons
               (calculateCraterSize pow_approx diameterKm velocityKmS)
               (generateRiskZones energyMegatons isPHA isSentry))
  /\ enrich pow_approx StringToNumber asteroid !! "torino_scale"
     = Some (VNum (calculateTorinoScale diameterKm energyMegatons isPHA isSentry))
  /\ enrich pow_approx StringToNumber asteroid !! "importance_score"
     = Some (VNum (calculateImportanceScore diameterKm velocityKmS missDistanceAU
                     isPHA isSentry)).
Proof.
  intros (Himpact & Htorino & Hscore).
  intros diameterKm velocityKmS missDistanceAU isPHA isSentry energyMegatons.
  unfold enrich.
  fold diameterKm velocityKmS missDistanceAU isPHA isSentry energyMegatons.
  repeat apply conj.
  - intros k v Hk.
    rewrite !lookup_insert_ne by (intros <-; congruence). exact Hk.
  - intros k Hki Hkt Hks.
    now rewrite !lookup_insert_ne by congruence.
  - rewrite !dom_insert_L. now rewrite !(assoc_L (∪)).
  - now rewrite lookup_insert_ne, lookup_insert_ne, lookup_insert_eq by discriminate.
  - now rewrite lookup_insert_ne, lookup_insert_eq by discriminate.
  - now rewrite lookup_insert_eq.
Qed.

End PipelineFacts.

(** A response with one record that has no diameter is accepted: no error,
    and the record comes out with NaN as impact energy and crater size.  A
    diameter of -1 km is accepted as well, and gives a negative energy. *)
Lemma fetchAsteroidData_accepts_missing_diameter :
  asteroid_without_diameter !! "estimated_diameter_km_max" = None
  /\ loadError (fetchAsteroidData JS.pow_square_cube JS.not_a_numeral
                  (Ok [asteroid_without_diameter])) = None
  /\ map (fun r => r !! "impact")
       (asteroidData (fetchAsteroidData JS.pow_square_cube JS.not_a_numeral
                        (Ok [asteroid_without_diameter])))
     = [Some (VImpact nan nan ["Remote Ocean"])]
  /\ asteroid_negative_diameter !! "estimated_diameter_km_max" = Some (VNum (-1))
  /\ loadError (fetchAsteroidData JS.pow_square_cube JS.not_a_numeral
                  (Ok [asteroid_negative_diameter])) = None
  /\ length (asteroidData (fetchAsteroidData JS.pow_square_cube JS.not_a_numeral
                             (Ok [asteroid_negative_diameter]))) = 1%nat
  /\ calculateImpactEnergy JS.pow_square_cube (-1) 20 = -62571.555401326339.
Proof. repeat apply conj; vm_compute; reflexivity. Qed.

(** The same record, in a response with a second one, through the theorem. *)
Lemma fetchAsteroidData_does_not_validate_example :
  enrich JS.pow_square_cube JS.not_a_numeral asteroid_without_diameter !! "impact"
  = Some (VImpact nan nan ["Remote Ocean"]).
Proof.
  apply (proj2 (proj2 (fetchAsteroidData_does_not_validate
                         JS.pow_square_cube JS.not_a_numeral
                         [asteroid_a; asteroid_without_diameter]))
           asteroid_without_diameter).
  - right. left. reflexivity.
  - left. vm_compute. reflexivity.
Defined.

(** Outside the raw records: a record that already comes with an importance
    score, of 99, leaves with the computed one, 5. *)
Lemma enrich_overwrites_importance_score :
  asteroid_scored !! "importance_score" = Some (VNum 99)
  /\ enrich JS.pow_square_cube JS.not_a_numeral asteroid_scored !! "importance_score"
     = Some (VNum 5)
  /\ enrich JS.pow_square_cube JS.not_a_numeral asteroid_scored !! "importance_score"
     <> asteroid_scored !! "importance_score".
Proof.
  assert (enrich JS.pow_square_cube JS.not_a_numeral asteroid_scored !! "importance_score"
          = Some (VNum 5)) as Hout by (vm_compute; reflexivity).
  assert (asteroid_scored !! "importance_score" = Some (VNum 99)) as Hin
      by (vm_compute; reflexivity).
  repeat apply conj; [exact Hin | exact Hout |].
  rewrite Hin, Hout. intros Heq.
  apply (f_equal (fun v => ToNumber JS.not_a_numeral v)) in Heq. cbn [ToNumber] in Heq.
  revert Heq. apply float_neq; reflexivity.
Qed.

(** Record [a] is a raw record, and its identifier is on its enrichment. *)
Lemma enrich_preserves_raw_fields_example :
  raw_record asteroid_a
  /\ enrich JS.pow_square_cube JS.not_a_numeral asteroid_a !! "id" = Some (VStr "a").
Proof.
  assert (raw_record asteroid_a) as Hraw by (repeat split; reflexivity).
  split; [exact Hraw|].
  apply (proj1 (enrich_preserves_raw_fields JS.pow_square_cube JS.not_a_numeral
                  asteroid_a Hraw)).
  reflexivity.
Defined.

(** * Further properties of the helpers *)

(** ** More of the order on numbers *)

Lemma SFleb_SFltb_trans (x y c : spec_float) :
  SFleb x y = true -> SFltb y c = true -> SFltb x c = true.
Proof.
  unfold SFltb, SFleb.
  destruct c as [sc|sc| |sc mc ec], x as [sx|sx| |sx mx ex], y as [sy|sy| |sy my ey];
    simpl; try discriminate; try (destruct sc, sx, sy; simpl; congruence).
  all: try (destruct sx; simpl; try discriminate;
            destruct sy; simpl; try discriminate;
            destruct sc; simpl; congruence).
  change (PosDef.Pos.compare_cont Eq) with Pos.compare.
  destruct sc, sx, sy; simpl; try congruence;
    destruct (Z.compare_spec ex ey), (Z.compare_spec ey ec), (Z.compare_spec ex ec);
    try congruence; try lia; subst;
    destruct (Pos.compare_spec mx my), (Pos.compare_spec my mc), (Pos.compare_spec mx mc);
    simpl; try congruence; try lia.
Qed.

(** What lies below a bound stays below it when it gets smaller. *)
Lemma lt_mono (c x y : float) :
  (x <=? y) = true -> JS.lt y c = true -> JS.lt x c = true.
Proof.
  unfold JS.lt. rewrite !FloatAxioms.ltb_spec, FloatAxioms.leb_spec.
  apply SFleb_SFltb_trans.
Qed.

Lemma SFltb_SFleb (x y : spec_float) : SFltb x y = true -> SFleb x y = true.
Proof.
  unfold SFltb, SFleb. destruct (SFcompare x y) as [[]|]; congruence.
Qed.

(** A number above a threshold is above every smaller threshold. *)
Lemma gt_weaken (c1 c2 x : float) :
  (c2 <=? c1) = true -> (x >? c1) = true -> (x >? c2) = true.
Proof.
  unfold JS.gt. rewrite !FloatAxioms.ltb_spec, FloatAxioms.leb_spec. intros Hc Hx.
  exact (SFleb_SFltb_trans _ _ _ Hc Hx).
Qed.

(** X1: for fixed energy and flags, [calculateTorinoScale] is non-decreasing
    in the diameter. *)
Theorem calculateTorinoScale_monotone_in_diameter d1 d2 e isPHA isSentry :
  (d1 <=? d2) = true ->
  (calculateTorinoScale d1 e isPHA isSentry
     <=? calculateTorinoScale d2 e isPHA isSentry) = true.
Proof.
  intros Hle. unfold calculateTorinoScale.
  destruct isSentry, isPHA;
    repeat match goal with
      | |- context [e >? ?c] => destruct (e >? c)
      end;
    try reflexivity;
    (destruct (d1 >? 1) eqn:Hd1;
     [ rewrite (gt_mono 1 d1 d2 Hle Hd1); reflexivity
     | destruct (d2 >? 1); reflexivity ]).
Qed.

Lemma calculateTorinoScale_monotone_in_diameter_example :
  (calculateTorinoScale 1 500 true true <=? calculateTorinoScale 1.5 500 true true) = true.
Proof.
  apply (calculateTorinoScale_monotone_in_diameter 1 1.5 500 true true). reflexivity.
Defined.

(** X2: a flag never lowers the scale.  Being on the sentry list gives at
    least 3 and at least what the same body gets off the list, which is at
    most 3; among the bodies off the list, a hazardous one gets at least 1 and
    the others get 0; on the list the hazard flag is not looked at. *)
Theorem calculateTorinoScale_flags d e isPHA :
  (3 <=? calculateTorinoScale d e isPHA true) = true
  /\ (calculateTorinoScale d e isPHA false <=? 3) = true
  /\ (calculateTorinoScale d e isPHA false <=? calculateTorinoScale d e isPHA true) = true
  /\ (1 <=? calculateTorinoScale d e true false) = true
  /\ calculateTorinoScale d e false false = 0
  /\ calculateTorinoScale d e true true = calculateTorinoScale d e false true.
Proof.
  unfold calculateTorinoScale.
  destruct isPHA; split_ifs; repeat apply conj; reflexivity.
Qed.

(** X3: [calculateImportanceScore] does not decrease when the body is wider,
    faster or passes closer, the flags being the same. *)
Theorem calculateImportanceScore_monotone d1 d2 v1 v2 m1 m2 isPHA isSentry :
  (d1 <=? d2) = true -> (v1 <=? v2) = true -> (m2 <=? m1) = true ->
  (calculateImportanceScore d1 v1 m1 isPHA isSentry
     <=? calculateImportanceScore d2 v2 m2 isPHA isSentry) = true.
Proof.
  intros Hd Hv Hm. unfold calculateImportanceScore.
  repeat match goal with
    | |- context [d1 >? ?c] =>
        destruct (d1 >? c) eqn:?; [ rewrite (gt_mono c d1 d2 Hd) by assumption | ]
    end;
  repeat match goal with
    | |- context [v1 >? ?c] =>
        destruct (v1 >? c) eqn:?; [ rewrite (gt_mono c v1 v2 Hv) by assumption | ]
    end;
  repeat match goal with
    | |- context [JS.lt m1 ?c] =>
        destruct (JS.lt m1 c) eqn:?; [ rewrite (lt_mono c m2 m1 Hm) by assumption | ]
    end;
  destruct isSentry, isPHA; split_ifs; reflexivity.
Qed.

Lemma calculateImportanceScore_monotone_example :
  (calculateImportanceScore 0.4 10 0.3 true false
     <=? calculateImportanceScore 12 30 0.01 true false) = true.
Proof.
  apply (calculateImportanceScore_monotone 0.4 12 10 30 0.3 0.01 true false);
    reflexivity.
Defined.

(** X4: the score is never 0: it is at least 1, at least 4 for a body on the
    sentry list and at least 3 for a hazardous one, and a body with neither
    flag scores at most 8; a sentry body scores the same whether or not it is
    also flagged hazardous. *)
Theorem calculateImportanceScore_by_flags d v missAU isPHA isSentry :
  (1 <=? calculateImportanceScore d v missAU isPHA isSentry) = true
  /\ (4 <=? calculateImportanceScore d v missAU isPHA true) = true
  /\ (3 <=? calculateImportanceScore d v missAU true isSentry) = true
  /\ (calculateImportanceScore d v missAU false false <=? 8) = true
  /\ calculateImportanceScore d v missAU true true
     = calculateImportanceScore d v missAU false true.
Proof.
  unfold calculateImportanceScore.
  destruct isSentry, isPHA;
    destruct (d >? 10), (d >? 1), (d >? 0.5), (v >? 25), (v >? 15),
      (JS.lt missAU 0.05), (JS.lt missAU 0.2);
    repeat apply conj; reflexivity.
Qed.

Section MorePipelineFacts.

Variable pow_approx : float -> float -> float.
Variable StringToNumber : string -> float.

(** The properties that the callback reads are not among those it writes. *)
Lemma enrich_lookup_read asteroid k :
  k <> "impact" -> k <> "torino_scale" -> k <> "importance_score" ->
  enrich pow_approx StringToNumber asteroid !! k = asteroid !! k.
Proof.
  intros. unfold enrich. now rewrite !lookup_insert_ne by congruence.
Qed.

(** X5: enriching is idempotent: the derived values only depend on
    properties that enriching leaves alone, so an enriched record that goes
    through the callback again comes out the same. *)
Theorem enrich_idempotent asteroid :
  enrich pow_approx StringToNumber (enrich pow_approx StringToNumber asteroid)
  = enrich pow_approx StringToNumber asteroid.
Proof.
  unfold enrich at 1.
  rewrite !enrich_lookup_read by discriminate.
  unfold enrich.
  apply map_eq. intros k.
  rewrite !lookup_insert. repeat case_decide; reflexivity.
Qed.

(** X6: a record without the five properties that the callback reads (the
    empty record, say) is enriched all the same: NaN as energy and crater
    size, the labels of the lowest bracket, 0 on the scale and the minimal
    score 1. *)
Theorem enrich_missing_properties asteroid :
  asteroid !! "estimated_diameter_km_max" = None ->
  asteroid !! "relative_velocity_km_s" = None ->
  asteroid !! "miss_distance_au" = None ->
  asteroid !! "is_potentially_hazardous_asteroid" = None ->
  asteroid !! "is_sentry_object" = None ->
  enrich pow_approx StringToNumber asteroid
  = <["importance_score" := VNum 1]>
      (<["torino_scale" := VNum 0]>
         (<["impact" := VImpact nan nan ["Remote Ocean"]]> asteroid)).
Proof.
  intros Hd Hv Hm Hp Hs. unfold enrich. rewrite Hd, Hv, Hm, Hp, Hs.
  cbn [ToNumber ToBoolean].
  rewrite (calculateImpactEnergy_nan pow_approx nan nan) by now left.
  rewrite (calculateCraterSize_nan pow_approx nan nan) by now left.
  reflexivity.
Qed.

End MorePipelineFacts.

Lemma enrich_empty_record :
  enrich JS.pow_square_cube JS.not_a_numeral ∅
  = {[ "importance_score" := VNum 1; "torino_scale" := VNum 0;
       "impact" := VImpact nan nan ["Remote Ocean"] ]}.
Proof.
  rewrite (enrich_missing_properties JS.pow_square_cube JS.not_a_numeral ∅)
    by reflexivity.
  reflexivity.
Defined.

(** ** Objects and their identity *)

Lemma objects_lookup array i a :
  objects array !! i = Some a -> fst a = i /\ array !! i = Some (snd a).
Proof.
  unfold objects. rewrite list_lookup_imap.
  destruct (array !! i) as [r|]; simpl; [|discriminate].
  intros [= <-]. auto.
Qed.

Lemma objects_length array : length (objects array) = length array.
Proof. apply length_imap. Qed.

Lemma objects_distinct array : distinct (objects array).
Proof.
  intros a b Ha Hb Hab.
  apply list_elem_of_In, list_elem_of_lookup in Ha as [i Hi].
  apply list_elem_of_In, list_elem_of_lookup in Hb as [j Hj].
  destruct (objects_lookup _ _ _ Hi) as [Hia _].
  destruct (objects_lookup _ _ _ Hj) as [Hjb _].
  assert (i = j) by congruence. subst j. congruence.
Qed.

Lemma same_object_true a b : same_object a b = true <-> fst a = fst b.
Proof. unfold same_object. apply Nat.eqb_eq. Qed.

Lemma includes_In l a : In a l -> includes l a = true.
Proof.
  intros Ha. unfold includes. apply existsb_exists. exists a.
  split; [exact Ha|]. now apply same_object_true.
Qed.

Lemma includes_filter (P : object -> bool) visible a :
  distinct visible -> In a visible ->
  includes (List.filter P visible) a = P a.
Proof.
  intros Hdistinct Ha. destruct (P a) eqn:HP.
  - apply includes_In, filter_In. auto.
  - apply not_true_is_false. unfold includes. rewrite existsb_exists.
    intros (b & Hb & Hab). apply filter_In in Hb as [Hb HPb].
    apply same_object_true in Hab.
    rewrite (Hdistinct a b Ha Hb Hab) in HP. congruence.
Qed.

Lemma indexOf_range l a :
  includes l a = true -> (0 <= indexOf l a < Z.of_nat (length l))%Z.
Proof.
  unfold includes. induction l as [|b l IH]; [discriminate|].
  cbn [existsb indexOf length]. destruct (same_object a b); [lia|].
  simpl. intros Hin. specialize (IH Hin).
  destruct (Z.ltb_spec (indexOf l a) 0); lia.
Qed.

Lemma indexOf_absent l a : includes l a = false -> indexOf l a = (-1)%Z.
Proof.
  unfold includes. induction l as [|b l IH]; [reflexivity|].
  cbn [existsb indexOf]. destruct (same_object a b); [discriminate|].
  simpl. intros Hin. now rewrite (IH Hin).
Qed.

(** ** Rings *)

Lemma push_rings_spec count ty color opacity rings d :
  exists new,
    push_rings count ty color opacity rings d
    = (rings ++ new, (d + ringGap * Z.of_nat count)%Z)
    /\ length new = count
    /\ forall i r, new !! i = Some r ->
         distance r = (d + ringGap * Z.of_nat i)%Z /\ type r = ty.
Proof.
  revert rings d. induction count as [|count IH]; intros rings d.
  - exists []. cbn [push_rings]. rewrite app_nil_r.
    split; [f_equal; lia|]. split; [reflexivity|].
    intros i r. rewrite lookup_nil. discriminate.
  - cbn [push_rings].
    destruct (IH (rings ++ [ {| distance := d; type := ty; color := color;
                                opacity := opacity |} ]) (d + ringGap)%Z)
      as (new & -> & Hlen & Hnew).
    exists ({| distance := d; type := ty; color := color; opacity := opacity |} :: new).
    rewrite <- app_assoc.
    split; [f_equal; lia|]. split; [simpl; now rewrite Hlen|].
    intros [|i] r; simpl.
    + intros [= <-]. simpl. split; [lia|reflexivity].
    + intros Hi. destruct (Hnew i r Hi). split; [lia|assumption].
Qed.

Lemma ceil_div_nonneg n : (0 <= n)%Z -> (0 <= ceil_div n maxAsteroidsPerRing)%Z.
Proof. unfold ceil_div, maxAsteroidsPerRing. intros. Z.to_euclidean_division_equations. lia. Qed.

Section RingFacts.

Variable StringToNumber : string -> float.

Lemma ring_counts_nonneg visible :
  (1 <= criticalRings StringToNumber visible /\ 0 <= hazardousRings StringToNumber visible
   /\ 0 <= regularRings StringToNumber visible)%Z.
Proof.
  unfold criticalRings, hazardousRings, regularRings.
  repeat apply conj; try lia; apply ceil_div_nonneg; lia.
Qed.

(** The rings are the critical ones, then the hazardous ones, then the
    regular ones. *)
Lemma calculateDynamicRings_parts visible :
  exists newC newH newR,
    calculateDynamicRings StringToNumber visible = newC ++ newH ++ newR
    /\ length newC = Z.to_nat (criticalRings StringToNumber visible)
    /\ length newH = Z.to_nat (hazardousRings StringToNumber visible)
    /\ length newR = Z.to_nat (regularRings StringToNumber visible)
    /\ (forall i r, newC !! i = Some r ->
          distance r = (15 + 12 * Z.of_nat i)%Z /\ type r = "critical")
    /\ (forall i r, newH !! i = Some r ->
          distance r = (15 + 12 * Z.of_nat (length newC + i))%Z /\ type r = "hazardous")
    /\ (forall i r, newR !! i = Some r ->
          distance r = (15 + 12 * Z.of_nat (length newC + length newH + i))%Z
          /\ type r = "regular").
Proof.
  pose proof (ring_counts_nonneg visible) as (Hc & Hh & Hr).
  unfold calculateDynamicRings.
  fold (criticalRings StringToNumber visible).
  replace (Z.max 0 (ceil_div (Z.of_nat (length (hazardousAsteroids StringToNumber visible)))
                      maxAsteroidsPerRing)) with (hazardousRings StringToNumber visible)
    by (unfold hazardousRings in *; lia).
  replace (Z.max 0 (ceil_div (Z.of_nat (length (regularAsteroids StringToNumber visible)))
                      maxAsteroidsPerRing)) with (regularRings StringToNumber visible)
    by (unfold regularRings in *; lia).
  destruct (push_rings_spec (Z.to_nat (criticalRings StringToNumber visible))
              "critical" 0xff4444 0.2 [] baseDistance) as (newC & -> & HlenC & HnewC).
  destruct (push_rings_spec (Z.to_nat (hazardousRings StringToNumber visible))
              "hazardous" 0xff8844 0.15 ([] ++ newC)
              (baseDistance
               + ringGap * Z.of_nat (Z.to_nat (criticalRings StringToNumber visible))))
    as (newH & -> & HlenH & HnewH).
  destruct (push_rings_spec (Z.to_nat (regularRings StringToNumber visible))
              "regular" 0x888888 0.1 (([] ++ newC) ++ newH)
              (baseDistance
               + ringGap * Z.of_nat (Z.to_nat (criticalRings StringToNumber visible))
               + ringGap * Z.of_nat (Z.to_nat (hazardousRings StringToNumber visible))))
    as (newR & -> & HlenR & HnewR).
  exists newC, newH, newR. cbn [app]. rewrite <- app_assoc.
  unfold baseDistance, ringGap in *.
  repeat apply conj; try assumption; try reflexivity.
  - intros i r Hi. destruct (HnewH _ _ Hi). split; [lia|assumption].
  - intros i r Hi. destruct (HnewR _ _ Hi). split; [lia|assumption].
Qed.

Lemma calculateDynamicRings_length visible :
  length (calculateDynamicRings StringToNumber visible)
  = Z.to_nat (criticalRings StringToNumber visible
              + hazardousRings StringToNumber visible
              + regularRings StringToNumber visible).
Proof.
  pose proof (ring_counts_nonneg visible) as (Hc & Hh & Hr).
  destruct (calculateDynamicRings_parts visible)
    as (newC & newH & newR & -> & HlenC & HlenH & HlenR & _).
  rewrite !length_app. lia.
Qed.

Lemma calculateDynamicRings_lookup visible i ring :
  calculateDynamicRings StringToNumber visible !! i = Some ring ->
  distance ring = (15 + 12 * Z.of_nat i)%Z
  /\ type ring
     = if (Z.of_nat i <? criticalRings StringToNumber visible)%Z then "critical"
       else if (Z.of_nat i <? criticalRings StringToNumber visible
                              + hazardousRings StringToNumber visible)%Z
            then "hazardous"
            else "regular".
Proof.
  pose proof (ring_counts_nonneg visible) as (Hc & Hh & Hr).
  destruct (calculateDynamicRings_parts visible)
    as (newC & newH & newR & -> & HlenC & HlenH & HlenR & HnewC & HnewH & HnewR).
  intros Hi.
  apply lookup_app_Some in Hi as [Hi|[Hge Hi]].
  - pose proof (lookup_lt_Some _ _ _ Hi).
    destruct (HnewC _ _ Hi) as [-> ->].
    destruct (Z.ltb_spec (Z.of_nat i) (criticalRings StringToNumber visible)); [|lia].
    split; [lia|reflexivity].
  - apply lookup_app_Some in Hi as [Hi|[Hge' Hi]].
    + pose proof (lookup_lt_Some _ _ _ Hi).
      destruct (HnewH _ _ Hi) as [-> ->].
      destruct (Z.ltb_spec (Z.of_nat i) (criticalRings StringToNumber visible)); [lia|].
      destruct (Z.ltb_spec (Z.of_nat i)
                  (criticalRings StringToNumber visible
                   + hazardousRings StringToNumber visible)); [|lia].
      split; [lia|reflexivity].
    + pose proof (lookup_lt_Some _ _ _ Hi).
      destruct (HnewR _ _ Hi) as [-> ->].
      destruct (Z.ltb_spec (Z.of_nat i) (criticalRings StringToNumber visible)); [lia|].
      destruct (Z.ltb_spec (Z.of_nat i)
                  (criticalRings StringToNumber visible
                   + hazardousRings StringToNumber visible)); [lia|].
      split; [lia|reflexivity].
Qed.

(** X7: the rings are spaced 12 apart from 15 on, first the critical ones (at
    least one, even when no record is critical), then the hazardous ones,
    then the regular ones, one per started group of five records. *)
Theorem calculateDynamicRings_layout visible :
  length (calculateDynamicRings StringToNumber visible)
  = Z.to_nat (criticalRings StringToNumber visible
              + hazardousRings StringToNumber visible
              + regularRings StringToNumber visible)
  /\ (1 <= criticalRings StringToNumber visible)%Z
  /\ forall i ring,
       calculateDynamicRings StringToNumber visible !! i = Some ring ->
       distance ring = (15 + 12 * Z.of_nat i)%Z
       /\ type ring
          = if (Z.of_nat i <? criticalRings StringToNumber visible)%Z then "critical"
            else if (Z.of_nat i <? criticalRings StringToNumber visible
                                   + hazardousRings StringToNumber visible)%Z
                 then "hazardous"
                 else "regular".
Proof.
  split; [apply calculateDynamicRings_length|].
  split; [apply ring_counts_nonneg|].
  intros i ring. apply calculateDynamicRings_lookup.
Qed.

(** *** The three groups *)

Lemma groups_of_visible visible a :
  distinct visible -> In a visible ->
  includes (criticalAsteroids StringToNumber visible) a = isCritical StringToNumber a
  /\ includes (hazardousAsteroids StringToNumber visible) a
     = negb (isCritical StringToNumber a) && isHazardous StringToNumber a
  /\ includes (regularAsteroids StringToNumber visible) a
     = negb (isCritical StringToNumber a) && negb (isHazardous StringToNumber a).
Proof.
  intros Hdistinct Ha.
  assert (includes (criticalAsteroids StringToNumber visible) a
          = isCritical StringToNumber a) as Hc
      by now apply includes_filter.
  assert (includes (hazardousAsteroids StringToNumber visible) a
          = negb (isCritical StringToNumber a) && isHazardous StringToNumber a) as Hh.
  { unfold hazardousAsteroids. rewrite includes_filter by assumption. now rewrite Hc. }
  repeat apply conj; [exact Hc|exact Hh|].
  unfold regularAsteroids. rewrite includes_filter by assumption.
  rewrite Hc, Hh. destruct (isCritical StringToNumber a), (isHazardous StringToNumber a);
    reflexivity.
Qed.

Lemma filter_three_lengths {A} (p1 p2 p3 : A -> bool) l :
  (forall a, In a l ->
     (p1 a, p2 a, p3 a) = (true, false, false)
     \/ (p1 a, p2 a, p3 a) = (false, true, false)
     \/ (p1 a, p2 a, p3 a) = (false, false, true)) ->
  (length (List.filter p1 l) + length (List.filter p2 l) + length (List.filter p3 l)
   = length l)%nat.
Proof.
  induction l as [|a l IH]; intros Hone; [reflexivity|].
  cbn [List.filter]. specialize (IH (fun b Hb => Hone b (or_intror Hb))).
  destruct (Hone a (or_introl eq_refl)) as [Heq|[Heq|Heq]];
    injection Heq as -> -> ->; simpl; lia.
Qed.

(** X8: every record shown is in exactly one of the three groups: the
    critical ones (on the sentry list or rated 3 or more), the hazardous ones
    among the others (flagged hazardous or rated 1 or more), and the regular
    ones, the rest; so the group sizes add up to the number of records. *)
Theorem ring_groups_partition array :
  (forall a, In a (objects array) ->
     includes (criticalAsteroids StringToNumber (objects array)) a
     = isCritical StringToNumber a
     /\ includes (hazardousAsteroids StringToNumber (objects array)) a
        = negb (isCritical StringToNumber a) && isHazardous StringToNumber a
     /\ includes (regularAsteroids StringToNumber (objects array)) a
        = negb (isCritical StringToNumber a) && negb (isHazardous StringToNumber a))
  /\ (length (criticalAsteroids StringToNumber (objects array))
      + length (hazardousAsteroids StringToNumber (objects array))
      + length (regularAsteroids StringToNumber (objects array))
      = length array)%nat.
Proof.
  split.
  - intros a Ha. apply groups_of_visible; [apply objects_distinct|exact Ha].
  - rewrite <- (objects_length array).
    apply filter_three_lengths. intros a Ha.
    destruct (groups_of_visible (objects array) a (objects_distinct array) Ha)
      as (Hc & Hh & _).
    rewrite Hc, Hh.
    destruct (isCritical StringToNumber a), (isHazardous StringToNumber a); simpl; auto.
Qed.

(** *** Placing a record *)

Lemma ring_position_valid visible a :
  distinct visible -> In a visible ->
  exists idx list,
    includes list a = true
    /\ (0 <= idx < Z.of_nat (length list))%Z
    /\ idx = indexOf list a
    /\ ((isCritical StringToNumber a = true
         /\ list = criticalAsteroids StringToNumber visible
         /\ ring_position StringToNumber visible a = (floor_div idx 5, list, idx))
        \/ (isCritical StringToNumber a = false
            /\ isHazardous StringToNumber a = true
            /\ list = hazardousAsteroids StringToNumber visible
            /\ ring_position StringToNumber visible a
               = ((hazardousRingIndex StringToNumber visible + floor_div idx 5)%Z,
                  list, idx))
        \/ (isCritical StringToNumber a = false
            /\ isHazardous StringToNumber a = false
            /\ list = regularAsteroids StringToNumber visible
            /\ ring_position StringToNumber visible a
               = ((regularRingIndex StringToNumber visible + floor_div idx 5)%Z,
                  list, idx))).
Proof.
  intros Hdistinct Ha.
  destruct (groups_of_visible visible a Hdistinct Ha) as (Hc & Hh & Hr).
  unfold ring_position. rewrite Hc, Hh.
  destruct (isCritical StringToNumber a) eqn:Hcrit; cbn [negb andb] in *.
  - exists (indexOf (criticalAsteroids StringToNumber visible) a),
      (criticalAsteroids StringToNumber visible).
    split; [exact Hc|]. split; [now apply indexOf_range|].
    split; [reflexivity|]. left. auto.
  - destruct (isHazardous StringToNumber a) eqn:Hhaz; cbn [negb andb] in *.
    + exists (indexOf (hazardousAsteroids StringToNumber visible) a),
        (hazardousAsteroids StringToNumber visible).
      split; [exact Hh|]. split; [now apply indexOf_range|].
      split; [reflexivity|]. right. left. auto.
    + exists (indexOf (regularAsteroids StringToNumber visible) a),
        (regularAsteroids StringToNumber visible).
      split; [exact Hr|]. split; [now apply indexOf_range|].
      split; [reflexivity|]. right. right. auto.
Qed.

Lemma ring_starts visible :
  (0 <= hazardousRingIndex StringToNumber visible
     <= criticalRings StringToNumber visible
   /\ hazardousRingIndex StringToNumber visible
      <= regularRingIndex StringToNumber visible
      <= criticalRings StringToNumber visible + hazardousRings StringToNumber visible)%Z.
Proof.
  unfold regularRingIndex, hazardousRingIndex, criticalRings, hazardousRings,
    ceil_div, maxAsteroidsPerRing.
  repeat match goal with |- context [(?x >? 0)%Z] => destruct (Z.gtb_spec x 0) end;
    Z.to_euclidean_division_equations; lia.
Qed.

Lemma ring_index_in_range visible a :
  distinct visible -> In a visible ->
  (0 <= fst (fst (ring_position StringToNumber visible a))
     < criticalRings StringToNumber visible + hazardousRings StringToNumber visible
       + regularRings StringToNumber visible)%Z.
Proof.
  intros Hdistinct Ha.
  pose proof (ring_counts_nonneg visible) as (Hc & Hh & Hr).
  pose proof (ring_starts visible) as (Hhs & Hrs).
  destruct (ring_position_valid visible a Hdistinct Ha)
    as (idx & list & _ & Hidx & _ & [(_ & -> & ->)|[(_ & _ & -> & ->)|(_ & _ & -> & ->)]]);
    cbn [fst]; unfold floor_div.
  - unfold criticalRings, ceil_div, maxAsteroidsPerRing in *.
    Z.to_euclidean_division_equations; lia.
  - unfold hazardousRings, ceil_div, maxAsteroidsPerRing in *.
    Z.to_euclidean_division_equations; lia.
  - unfold regularRings, ceil_div, maxAsteroidsPerRing in *.
    Z.to_euclidean_division_equations; lia.
Qed.

(** On a record of the array the ring exists, and the body ends with the
    mesh unless the colours throw. *)
Lemma place_normal visible a :
  distinct visible -> In a visible ->
  exists ring,
    (0 <= fst (fst (ring_position StringToNumber visible a)))%Z
    /\ calculateDynamicRings StringToNumber visible
         !! Z.to_nat (fst (fst (ring_position StringToNumber visible a))) = Some ring
    /\ place StringToNumber visible a
       = match mesh_colors StringToNumber (snd a) with
         | None => Threw
         | Some (color, emissive) =>
             Placed
               {| ringIndex := fst (fst (ring_position StringToNumber visible a));
                  onRing := ring;
                  asteroidIndexInRing :=
                    Z.rem (snd (ring_position StringToNumber visible a))
                      maxAsteroidsPerRing;
                  totalInThisRing :=
                    Z.min maxAsteroidsPerRing
                      (Z.of_nat
                         (length (snd (fst (ring_position StringToNumber visible a))))
                       - floor_div (snd (ring_position StringToNumber visible a))
                           maxAsteroidsPerRing * maxAsteroidsPerRing);
                  originalScale :=
                    mesh_size
                      (ToNumber StringToNumber (snd a !! "estimated_diameter_km_max"));
                  originalColor := color;
                  originalEmissive := emissive |}
         end.
Proof.
  intros Hdistinct Ha.
  pose proof (ring_index_in_range visible a Hdistinct Ha) as Hrange.
  unfold place.
  destruct (ring_position StringToNumber visible a) as [[ri list] idx].
  cbn [fst snd] in *.
  destruct (lookup_lt_is_Some_2 (calculateDynamicRings StringToNumber visible)
              (Z.to_nat ri)) as [ring Hring].
  { rewrite calculateDynamicRings_length. lia. }
  exists ring. split; [lia|]. split; [exact Hring|].
  unfold ring_at. destruct (Z.ltb_spec ri 0); [lia|].
  rewrite Hring. destruct (mesh_colors StringToNumber (snd a)) as [[color emissive]|];
    reflexivity.
Qed.

(** X9: no record shown is left without a ring.  The body never takes the
    early return: it throws exactly when the colours do, and otherwise
    places the record on an existing ring, in a slot below the number of
    records of its ring, which is at most 5. *)
Theorem place_never_skips array a :
  In a (objects array) ->
  match place StringToNumber (objects array) a with
  | Skipped => False
  | Threw => mesh_colors StringToNumber (snd a) = None
  | Placed p =>
      mesh_colors StringToNumber (snd a) = Some (originalColor p, originalEmissive p)
      /\ (0 <= ringIndex p)%Z
      /\ calculateDynamicRings StringToNumber (objects array) !! Z.to_nat (ringIndex p)
         = Some (onRing p)
      /\ (0 <= asteroidIndexInRing p < totalInThisRing p)%Z
      /\ (totalInThisRing p <= 5)%Z
  end.
Proof.
  intros Ha.
  destruct (place_normal (objects array) a (objects_distinct array) Ha)
    as (ring & Hri & Hring & ->).
  destruct (ring_position_valid (objects array) a (objects_distinct array) Ha)
    as (idx & list & _ & Hidx & _ & Hpos).
  destruct (mesh_colors StringToNumber (snd a)) as [[color emissive]|];
    [|reflexivity].
  cbn [originalColor originalEmissive ringIndex onRing asteroidIndexInRing
         totalInThisRing].
  split; [reflexivity|]. split; [exact Hri|]. split; [exact Hring|].
  assert (ring_position StringToNumber (objects array) a
          = (fst (fst (ring_position StringToNumber (objects array) a)), list, idx))
    as -> by (destruct Hpos as [(_ & _ & ->)|[(_ & _ & _ & ->)|(_ & _ & _ & ->)]];
              reflexivity).
  cbn [fst snd]. unfold floor_div, maxAsteroidsPerRing.
  rewrite Z.rem_mod_nonneg by lia.
  Z.to_euclidean_division_equations; lia.
Qed.

(** X10: when some record is critical, every record is put on a ring of the
    type of its group. *)
Theorem place_ring_type array a p :
  criticalAsteroids StringToNumber (objects array) <> [] ->
  In a (objects array) ->
  place StringToNumber (objects array) a = Placed p ->
  type (onRing p)
  = if isCritical StringToNumber a then "critical"
    else if isHazardous StringToNumber a then "hazardous"
    else "regular".
Proof.
  intros Hcrit Ha Hplace.
  destruct (place_normal (objects array) a (objects_distinct array) Ha)
    as (ring & Hri & Hring & Heq).
  rewrite Heq in Hplace.
  destruct (mesh_colors StringToNumber (snd a)) as [[color emissive]|];
    [|discriminate].
  injection Hplace as <-. cbn [onRing].
  destruct (calculateDynamicRings_lookup _ _ _ Hring) as [_ ->].
  rewrite Z2Nat.id by exact Hri.
  pose proof (ring_counts_nonneg (objects array)) as (Hc & Hh & Hr).
  assert (0 < Z.of_nat (length (criticalAsteroids StringToNumber (objects array))))%Z
    as Hlen.
  { destruct (criticalAsteroids StringToNumber (objects array)); [congruence|].
    cbn [length]. lia. }
  destruct (ring_position_valid (objects array) a (objects_distinct array) Ha)
    as (idx & list & _ & Hidx & _
        & [(-> & -> & ->)|[(-> & -> & -> & ->)|(-> & -> & -> & ->)]]);
    cbn [fst];
    unfold regularRingIndex, hazardousRingIndex, criticalRings, hazardousRings,
      regularRings, floor_div, ceil_div, maxAsteroidsPerRing in *;
    repeat match goal with
      | |- context [(?x >? 0)%Z] => destruct (Z.gtb_spec x 0)
      end;
    repeat match goal with
      | |- context [(?x <? ?y)%Z] => destruct (Z.ltb_spec x y)
      end;
    try reflexivity; exfalso; Z.to_euclidean_division_equations; lia.
Qed.

(** X11: when no record is critical there is still a critical ring, and
    every record is put one ring inside the rings of its own group: the ring
    after the one it is on is of the type of its group.  So the first five
    hazardous records are on the ring of type critical. *)
Theorem place_without_critical array a p :
  criticalAsteroids StringToNumber (objects array) = [] ->
  In a (objects array) ->
  place StringToNumber (objects array) a = Placed p ->
  (exists next,
      calculateDynamicRings StringToNumber (objects array) !! Z.to_nat (ringIndex p + 1)
      = Some next
      /\ type next = if isHazardous StringToNumber a then "hazardous" else "regular")
  /\ (isHazardous StringToNumber a = true ->
      ringIndex p
      = floor_div (indexOf (hazardousAsteroids StringToNumber (objects array)) a) 5
      /\ type (onRing p)
         = if (indexOf (hazardousAsteroids StringToNumber (objects array)) a <? 5)%Z
           then "critical" else "hazardous").
Proof.
  intros Hcrit Ha Hplace.
  destruct (place_normal (objects array) a (objects_distinct array) Ha)
    as (ring & Hri & Hring & Heq).
  rewrite Heq in Hplace.
  destruct (mesh_colors StringToNumber (snd a)) as [[color emissive]|];
    [|discriminate].
  injection Hplace as <-. cbn [onRing ringIndex].
  destruct (calculateDynamicRings_lookup _ _ _ Hring) as [_ ->].
  rewrite Z2Nat.id by exact Hri.
  pose proof (ring_counts_nonneg (objects array)) as (Hc & Hh & Hr).
  pose proof (calculateDynamicRings_length (objects array)) as Hlen.
  destruct (groups_of_visible (objects array) a (objects_distinct array) Ha)
    as (Hgc & _). rewrite Hcrit in Hgc. cbn in Hgc.
  assert (criticalRings StringToNumber (objects array) = 1%Z) as Hone
      by (unfold criticalRings; rewrite Hcrit; reflexivity).
  assert (hazardousRingIndex StringToNumber (objects array) = 0%Z) as Hzero
      by (unfold hazardousRingIndex; rewrite Hcrit; reflexivity).
  destruct (ring_position_valid (objects array) a (objects_distinct array) Ha)
    as (idx & list & _ & Hidx & Hidx'
        & [(Hc' & _)|[(_ & Hhaz & -> & Hpos)|(_ & Hhaz & -> & Hpos)]]);
    [congruence| |];
    rewrite Hpos in *; cbn [fst] in *; rewrite Hhaz; subst idx.
  - split.
    + destruct (lookup_lt_is_Some_2 (calculateDynamicRings StringToNumber (objects array))
                  (Z.to_nat (hazardousRingIndex StringToNumber (objects array)
                             + floor_div
                                 (indexOf (hazardousAsteroids StringToNumber (objects array)) a)
                                 5 + 1))) as [next Hnext].
      { rewrite Hlen, Hone, Hzero.
        unfold hazardousRings, floor_div, ceil_div, maxAsteroidsPerRing in *.
        Z.to_euclidean_division_equations; lia. }
      exists next. split; [exact Hnext|].
      destruct (calculateDynamicRings_lookup _ _ _ Hnext) as [_ ->].
      rewrite Z2Nat.id by lia. rewrite Hone, Hzero.
      unfold hazardousRings, floor_div, ceil_div, maxAsteroidsPerRing in *.
      repeat match goal with
        | |- context [(?x <? ?y)%Z] => destruct (Z.ltb_spec x y)
        end;
      try reflexivity; exfalso; Z.to_euclidean_division_equations; lia.
    + intros _. rewrite Hone, Hzero.
      split; [reflexivity|].
      unfold hazardousRings, floor_div, ceil_div, maxAsteroidsPerRing in *.
      repeat match goal with
        | |- context [(?x <? ?y)%Z] => destruct (Z.ltb_spec x y)
        end;
      try reflexivity; exfalso; Z.to_euclidean_division_equations; lia.
  - split; [|discriminate].
    assert (regularRingIndex StringToNumber (objects array)
            = hazardousRings StringToNumber (objects array)) as Hreg.
    { unfold regularRingIndex. rewrite Hzero. unfold hazardousRings.
      destruct (Z.gtb_spec
                  (Z.of_nat (length (hazardousAsteroids StringToNumber (objects array)))) 0);
        [reflexivity|].
      replace (length (hazardousAsteroids StringToNumber (objects array))) with 0%nat
        by lia. reflexivity. }
    destruct (lookup_lt_is_Some_2 (calculateDynamicRings StringToNumber (objects array))
                (Z.to_nat (regularRingIndex StringToNumber (objects array)
                           + floor_div
                               (indexOf (regularAsteroids StringToNumber (objects array)) a)
                               5 + 1))) as [next Hnext].
    { rewrite Hlen, Hone, Hreg.
      unfold regularRings, floor_div, ceil_div, maxAsteroidsPerRing in *.
      Z.to_euclidean_division_equations; lia. }
    exists next. split; [exact Hnext|].
    destruct (calculateDynamicRings_lookup _ _ _ Hnext) as [_ ->].
    rewrite Z2Nat.id by lia. rewrite Hone, Hreg.
    unfold regularRings, floor_div, ceil_div, maxAsteroidsPerRing in *.
    repeat match goal with
      | |- context [(?x <? ?y)%Z] => destruct (Z.ltb_spec x y)
      end;
    try reflexivity; exfalso; Z.to_euclidean_division_equations; lia.
Qed.

(** The run of the loop over a part of the array. *)
Lemma forEach_place_spec array rest :
  (forall a, In a rest -> In a (objects array)) ->
  (snd (forEach_place StringToNumber (objects array) rest) = true
   <-> exists a, In a rest /\ mesh_colors StringToNumber (snd a) = None)
  /\ (snd (forEach_place StringToNumber (objects array) rest) = false ->
      length (fst (forEach_place StringToNumber (objects array) rest)) = length rest).
Proof.
  induction rest as [|a rest IH]; intros Hsub.
  - cbn. split; [|reflexivity]. split; [discriminate|]. now intros (a & [] & _).
  - pose proof (place_normal (objects array) a (objects_distinct array)
                  (Hsub a (or_introl eq_refl))) as (ring & _ & _ & Heq).
    destruct (IH (fun b Hb => Hsub b (or_intror Hb))) as [IHthrow IHlen].
    cbn [forEach_place]. rewrite Heq.
    destruct (mesh_colors StringToNumber (snd a)) as [[color emissive]|] eqn:Hcolors.
    + destruct (forEach_place StringToNumber (objects array) rest) as [placed threw].
      cbn [fst snd] in *. split.
      * rewrite IHthrow. split.
        -- intros (b & Hb & Hnone). exists b. split; [now right|exact Hnone].
        -- intros (b & [<-|Hb] & Hnone); [congruence|]. now exists b.
      * intros Hno. cbn [length]. now rewrite IHlen.
    + cbn [fst snd]. split; [|discriminate].
      split; [|reflexivity]. intros _. exists a. split; [now left|exact Hcolors].
Qed.

(** X12: the loop over the records shown throws exactly when the colours of
    one of them throw; when it does not, it makes one mesh per record. *)
Theorem forEach_place_complete array :
  (snd (forEach_place StringToNumber (objects array) (objects array)) = true
   <-> exists a, In a (objects array) /\ mesh_colors StringToNumber (snd a) = None)
  /\ (snd (forEach_place StringToNumber (objects array) (objects array)) = false ->
      length (fst (forEach_place StringToNumber (objects array) (objects array)))
      = length array).
Proof.
  destruct (forEach_place_spec array (objects array) (fun a Ha => Ha)) as [Hthrow Hlen].
  split; [exact Hthrow|]. intros Hno. rewrite (Hlen Hno). apply objects_length.
Qed.

(** X13: the colours throw exactly on a record that is flagged (sentry or
    hazardous) or wider than 10 km and whose diameter is not a number: these
    are the branches that log [diameterKm.toFixed(2)]. *)
Theorem mesh_colors_throws asteroid :
  mesh_colors StringToNumber asteroid = None
  <-> has_toFixed (asteroid !! "estimated_diameter_km_max") = false
      /\ (ToBoolean (asteroid !! "is_sentry_object")
          || ToBoolean (asteroid !! "is_potentially_hazardous_asteroid")
          || (ToNumber StringToNumber (asteroid !! "estimated_diameter_km_max") >? 10))
         = true.
Proof.
  unfold mesh_colors.
  destruct (ToBoolean (asteroid !! "is_sentry_object")),
    (ToBoolean (asteroid !! "is_potentially_hazardous_asteroid")),
    (ToNumber StringToNumber (asteroid !! "estimated_diameter_km_max") >? 10),
    (ToNumber StringToNumber (asteroid !! "estimated_diameter_km_max") >? 1),
    (has_toFixed (asteroid !! "estimated_diameter_km_max"));
    cbn; split; try tauto; try discriminate; intros [? ?]; discriminate.
Qed.

(** X14: the colour of the mesh agrees with the risk badge: red exactly for
    the records whose level is CRITICAL, orange exactly for HIGH. *)
Theorem mesh_colors_risk_level asteroid color emissive :
  mesh_colors StringToNumber asteroid = Some (color, emissive) ->
  (color = 0xff3333%Z <-> getRiskLevel StringToNumber asteroid = "CRITICAL")
  /\ (color = 0xff8800%Z <-> getRiskLevel StringToNumber asteroid = "HIGH").
Proof.
  unfold mesh_colors, getRiskLevel.
  destruct (ToBoolean (asteroid !! "is_sentry_object")),
    (ToBoolean (asteroid !! "is_potentially_hazardous_asteroid")),
    (ToNumber StringToNumber (asteroid !! "estimated_diameter_km_max") >? 10),
    (ToNumber StringToNumber (asteroid !! "estimated_diameter_km_max") >? 1),
    (has_toFixed (asteroid !! "estimated_diameter_km_max")),
    (ToNumber StringToNumber (asteroid !! "importance_score") >? 6);
    intros [= <- <-] || discriminate 1; split; split; (reflexivity || discriminate).
Qed.

End RingFacts.

(** ** The records shown *)

Lemma slice_from_start_all {A} (array : list A) :
  slice_from_start array (Z.of_nat (length array)) = array.
Proof.
  unfold slice_from_start.
  destruct (Z.ltb_spec (Z.of_nat (length array)) 0); [lia|].
  rewrite Z.min_id, Nat2Z.id. apply firstn_all.
Qed.

Lemma StronglySorted_app_inv {A} (R : A -> A -> Prop) l1 l2 :
  StronglySorted R (l1 ++ l2) ->
  forall a b, In a l1 -> In b l2 -> R a b.
Proof.
  induction l1 as [|x l1 IH]; intros Hsorted a b Ha Hb; [destruct Ha|].
  cbn in Hsorted. apply StronglySorted_inv in Hsorted as [Hsorted Hx].
  destruct Ha as [<-|Ha]; [|now apply IH].
  rewrite Forall_forall in Hx. apply Hx. apply list_elem_of_In, in_or_app. now right.
Qed.

Section ViewFacts.

Variable pow_approx : float -> float -> float.
Variable StringToNumber : string -> float.

Lemma sortedData_StronglySorted data :
  StronglySorted
    (fun a b =>
       (importance_score StringToNumber b <=? importance_score StringToNumber a) = true)
    (sortedData pow_approx StringToNumber data).
Proof.
  pose proof (enrichedData_scored pow_approx StringToNumber data) as Hscored.
  unfold sortedData.
  apply (StronglySorted_on (scored StringToNumber)
           (rank_descending (score_rank StringToNumber))).
  - intros x y Hx Hy. apply rank_descending_scores; assumption.
  - apply Array_sort_Forall, Hscored.
  - apply (Array_sort_sorted _ _ (scored StringToNumber)); [|exact Hscored].
    apply by_importance_rank.
Qed.


(** X16: the slider keeps the most important records: the records shown are
    the first ones of the sorted array, and no hidden record has a higher
    score than a record shown. *)
Theorem visibleAsteroids_most_important data n :
  let all := sortedData pow_approx StringToNumber data in
  let shown := visibleAsteroids all n in
  shown ++ drop (length shown) all = all
  /\ (length shown <= length data)%nat
  /\ ((0 <= n <= Z.of_nat (length data))%Z -> length shown = Z.to_nat n)
  /\ forall a b, In a shown -> In b (drop (length shown) all) ->
       (importance_score StringToNumber b <=? importance_score StringToNumber a) = true.
Proof.
  intros all shown.
  assert (length all = length data) as Hlen.
  { unfold all, sortedData. rewrite (Permutation_length (Array_sort_Permutation _ _)).
    unfold enrichedData. apply length_map. }
  unfold shown, visibleAsteroids, slice_from_start. rewrite Hlen.
  set (k := Z.to_nat (if (n <? 0)%Z then Z.max (Z.of_nat (length data) + n) 0
                      else Z.min n (Z.of_nat (length data)))).
  assert (k <= length data)%nat as Hk
      by (unfold k; destruct (Z.ltb_spec n 0); lia).
  rewrite length_take, Hlen, Nat.min_l by exact Hk.
  repeat apply conj.
  - apply take_drop.
  - exact Hk.
  - intros Hn. unfold k. destruct (Z.ltb_spec n 0); lia.
  - intros a b Ha Hb.
    pose proof (sortedData_StronglySorted data) as Hsorted. fold all in Hsorted.
    rewrite <- (take_drop k all) in Hsorted.
    exact (StronglySorted_app_inv _ _ _ Hsorted a b Ha Hb).
Qed.

End ViewFacts.

(** ** The helpers together *)

(** A number below a bound is below every larger bound. *)
Lemma lt_weaken (c1 c2 x : float) :
  (c1 <=? c2) = true -> JS.lt x c1 = true -> JS.lt x c2 = true.
Proof.
  unfold JS.lt. rewrite !FloatAxioms.ltb_spec, FloatAxioms.leb_spec. intros Hc Hx.
  exact (SFltb_SFleb_trans _ _ _ Hx Hc).
Qed.

(** X17: the scale and the labels agree on what is global: a body on the
    sentry list is rated 9 or 10 exactly when its labels are the three global
    ones, and it is rated 7 or more exactly when its energy is above 1000
    megatons; a hazardous body off the list is rated 3 exactly when its
    labels are the global ones. *)
Theorem calculateTorinoScale_generateRiskZones d e isPHA isSentry :
  number_ge (calculateTorinoScale d e isPHA true) 9
  = bool_decide (generateRiskZones e isPHA isSentry
                 = ["Global Extinction Event"; "Mass Extinction Event";
                    "Global Devastation"])
  /\ (calculateTorinoScale d e true false =? 3)
     = bool_decide (generateRiskZones e isPHA isSentry
                    = ["Global Extinction Event"; "Mass Extinction Event";
                       "Global Devastation"])
  /\ number_ge (calculateTorinoScale d e isPHA true) 7 = (e >? 1000).
Proof.
  unfold calculateTorinoScale, generateRiskZones, number_ge.
  destruct (e >? 1000000) eqn:H6.
  - rewrite (gt_weaken 1000000 100000 e eq_refl H6).
    rewrite (gt_weaken 1000000 1000 e eq_refl H6).
    repeat apply conj; reflexivity.
  - destruct (e >? 100000) eqn:H5.
    + rewrite (gt_weaken 100000 1000 e eq_refl H5). repeat apply conj; reflexivity.
    + destruct (e >? 10000) eqn:H4.
      * rewrite (gt_weaken 10000 1000 e eq_refl H4).
        destruct (d >? 1); repeat apply conj; reflexivity.
      * destruct (e >? 1000), (e >? 100), (e >? 10), (d >? 1);
          repeat apply conj; reflexivity.
Qed.

Section EnrichedView.

Variable pow_approx : float -> float -> float.
Variable StringToNumber : string -> float.

(** The view reads the flags and the diameter, which enriching keeps. *)
Lemma mesh_colors_enrich asteroid :
  mesh_colors StringToNumber (enrich pow_approx StringToNumber asteroid)
  = mesh_colors StringToNumber asteroid.
Proof.
  unfold mesh_colors. now rewrite !enrich_lookup_read by discriminate.
Qed.

Lemma enrich_torino_scale asteroid :
  enrich pow_approx StringToNumber asteroid !! "torino_scale"
  = Some (VNum
            (calculateTorinoScale
               (ToNumber StringToNumber (asteroid !! "estimated_diameter_km_max"))
               (calculateImpactEnergy pow_approx
                  (ToNumber StringToNumber (asteroid !! "estimated_diameter_km_max"))
                  (ToNumber StringToNumber (asteroid !! "relative_velocity_km_s")))
               (ToBoolean (asteroid !! "is_potentially_hazardous_asteroid"))
               (ToBoolean (asteroid !! "is_sentry_object")))).
Proof.
  unfold enrich. now rewrite lookup_insert_ne, lookup_insert_eq by discriminate.
Qed.

Lemma enrich_importance_score asteroid :
  enrich pow_approx StringToNumber asteroid !! "importance_score"
  = Some (VNum
            (calculateImportanceScore
               (ToNumber StringToNumber (asteroid !! "estimated_diameter_km_max"))
               (ToNumber StringToNumber (asteroid !! "relative_velocity_km_s"))
               (ToNumber StringToNumber (asteroid !! "miss_distance_au"))
               (ToBoolean (asteroid !! "is_potentially_hazardous_asteroid"))
               (ToBoolean (asteroid !! "is_sentry_object")))).
Proof. unfold enrich. now rewrite lookup_insert_eq. Qed.

(** X18: for an enriched record the ring groups follow the flags: it is
    critical when it is on the sentry list or hazardous with more than 100000
    megatons, hazardous when it is flagged hazardous and not critical, and
    regular exactly when it has neither flag, that is when it is rated 0. *)
Theorem enriched_ring_group asteroid i :
  let enriched := (i, enrich pow_approx StringToNumber asteroid) in
  let isPHA := ToBoolean (asteroid !! "is_potentially_hazardous_asteroid") in
  let isSentry := ToBoolean (asteroid !! "is_sentry_object") in
  let energy :=
    calculateImpactEnergy pow_approx
      (ToNumber StringToNumber (asteroid !! "estimated_diameter_km_max"))
      (ToNumber StringToNumber (asteroid !! "relative_velocity_km_s")) in
  isCritical StringToNumber enriched = isSentry || (isPHA && (energy >? 100000))
  /\ negb (isCritical StringToNumber enriched) && isHazardous StringToNumber enriched
     = negb isSentry && isPHA && negb (energy >? 100000)
  /\ negb (isCritical StringToNumber enriched)
     && negb (isHazardous StringToNumber enriched)
     = negb isSentry && negb isPHA
  /\ negb isSentry && negb isPHA
     = (ToNumber StringToNumber (snd enriched !! "torino_scale") =? 0).
Proof.
  intros enriched isPHA isSentry energy.
  unfold isCritical, isHazardous, enriched. cbn [snd].
  rewrite enrich_torino_scale. cbn [ToNumber].
  rewrite !enrich_lookup_read by discriminate.
  fold isPHA isSentry energy.
  unfold calculateTorinoScale, number_ge.
  destruct isSentry, isPHA; split_ifs; repeat apply conj; reflexivity.
Qed.

(** X19: the badge of an enriched record: CRITICAL for the sentry list, HIGH
    for the other hazardous bodies; a body with neither flag is MODERATE only
    if it is wider than 1 km and either faster than 15 km/s or closer than
    0.2 AU, and LOW otherwise. *)
Theorem getRiskLevel_enriched asteroid :
  let d := ToNumber StringToNumber (asteroid !! "estimated_diameter_km_max") in
  let v := ToNumber StringToNumber (asteroid !! "relative_velocity_km_s") in
  let missAU := ToNumber StringToNumber (asteroid !! "miss_distance_au") in
  let isPHA := ToBoolean (asteroid !! "is_potentially_hazardous_asteroid") in
  let isSentry := ToBoolean (asteroid !! "is_sentry_object") in
  let level := getRiskLevel StringToNumber (enrich pow_approx StringToNumber asteroid) in
  In level ["CRITICAL"; "HIGH"; "MODERATE"; "LOW"]
  /\ String.eqb level "CRITICAL" = isSentry
  /\ String.eqb level "HIGH" = negb isSentry && isPHA
  /\ (level = "MODERATE" ->
      (d >? 1) = true /\ ((v >? 15) || JS.lt missAU 0.2) = true)
  /\ ((d >? 1) = false -> isSentry = false -> isPHA = false -> level = "LOW").
Proof.
  intros d v missAU isPHA isSentry level. unfold level, getRiskLevel.
  rewrite enrich_importance_score. cbn [ToNumber].
  rewrite !enrich_lookup_read by discriminate.
  fold d v missAU isPHA isSentry.
  unfold calculateImportanceScore.
  destruct isSentry, isPHA;
    destruct (d >? 10) eqn:H10, (d >? 1) eqn:H1, (d >? 0.5),
      (v >? 25) eqn:H25, (v >? 15) eqn:H15,
      (JS.lt missAU 0.05) eqn:H005, (JS.lt missAU 0.2) eqn:H02;
    try (rewrite (gt_weaken 10 1 d eq_refl H10) in H1; discriminate H1);
    try (rewrite (gt_weaken 25 15 v eq_refl H25) in H15; discriminate H15);
    try (rewrite (lt_weaken 0.05 0.2 missAU eq_refl H005) in H02; discriminate H02);
    cbn; repeat apply conj; try reflexivity; try discriminate;
    try (intros; discriminate); auto 6.
Qed.

(** [getRiskColor] gives each of the three named levels its own class and
    the emerald class to every other string, LOW included. *)
Theorem getRiskColor_levels level :
  getRiskColor "CRITICAL" = "text-red-100 bg-red-900"
  /\ getRiskColor "HIGH" = "text-orange-100 bg-orange-900"
  /\ getRiskColor "MODERATE" = "text-yellow-100 bg-yellow-900"
  /\ (level <> "CRITICAL" -> level <> "HIGH" -> level <> "MODERATE" ->
      getRiskColor level = "text-emerald-100 bg-emerald-900")
  /\ (getRiskColor level = getRiskColor "LOW" ->
      level <> "CRITICAL" /\ level <> "HIGH" /\ level <> "MODERATE").
Proof.
  repeat apply conj; try reflexivity.
  - intros Hc Hh Hm. unfold getRiskColor.
    destruct (String.eqb_spec level "CRITICAL"); [contradiction|].
    destruct (String.eqb_spec level "HIGH"); [contradiction|].
    destruct (String.eqb_spec level "MODERATE"); [contradiction|]. reflexivity.
  - unfold getRiskColor.
    destruct (String.eqb_spec level "CRITICAL"); [discriminate|].
    destruct (String.eqb_spec level "HIGH"); [discriminate|].
    destruct (String.eqb_spec level "MODERATE"); [discriminate|]. auto.
Qed.

Lemma In_objects array r : In r array -> exists i, In (i, r) (objects array).
Proof.
  intros Hr. apply list_elem_of_In, list_elem_of_lookup in Hr as [i Hi].
  exists i. apply list_elem_of_In, list_elem_of_lookup. exists i.
  unfold objects. rewrite list_lookup_imap, Hi. reflexivity.
Qed.

(** X20: a flagged record whose diameter is not a number goes through the
    request without an error and then makes the loop that builds the meshes
    throw. *)
Theorem flagged_without_diameter_throws data asteroid :
  In asteroid data ->
  has_toFixed (asteroid !! "estimated_diameter_km_max") = false ->
  ToBoolean (asteroid !! "is_sentry_object")
  || ToBoolean (asteroid !! "is_potentially_hazardous_asteroid") = true ->
  let st := fetchAsteroidData pow_approx StringToNumber (Ok data) in
  let shown := objects (visibleAsteroids (asteroidData st) (Z.of_nat (maxAsteroids st))) in
  loadError st = None
  /\ snd (forEach_place StringToNumber shown shown) = true.
Proof.
  intros Hin Hfixed Hflag st shown. split; [reflexivity|].
  unfold shown, st, visibleAsteroids. cbn [fetchAsteroidData try_block asteroidData maxAsteroids].
  rewrite slice_from_start_all.
  apply (proj1 (forEach_place_spec StringToNumber _ _ (fun a Ha => Ha))).
  destruct (In_objects (sortedData pow_approx StringToNumber data)
              (enrich pow_approx StringToNumber asteroid)) as [i Hi].
  { eapply Permutation_in; [symmetry; apply Array_sort_Permutation|].
    unfold enrichedData. now apply in_map. }
  exists (i, enrich pow_approx StringToNumber asteroid). split; [exact Hi|].
  cbn [snd]. rewrite mesh_colors_enrich.
  unfold mesh_colors. rewrite Hfixed.
  destruct (ToBoolean (asteroid !! "is_sentry_object")); [reflexivity|].
  cbn in Hflag. now rewrite Hflag.
Qed.

End EnrichedView.

(** ** Impact trajectories *)

Lemma createImpactTrajectory_cons zone riskZones :
  createImpactTrajectory (zone :: riskZones)
  = match coords_of zone with
    | Some (lat, lng) =>
        [ TrajectoryLine ((90 - lat) * (JS.Math_PI / 180)) ((lng + 180) * (JS.Math_PI / 180));
          ImpactMarker ((90 - lat) * (JS.Math_PI / 180)) ((lng + 180) * (JS.Math_PI / 180));
          PulseRing ((90 - lat) * (JS.Math_PI / 180)) ((lng + 180) * (JS.Math_PI / 180)) ]
    | None => []
    end ++ createImpactTrajectory riskZones.
Proof.
  unfold createImpactTrajectory. cbn [flat_map].
  destruct (coords_of zone) as [[lat lng]|]; reflexivity.
Qed.

(** X21: the group has three children per zone that has coordinates, a line, a
    marker and a pulse ring in this order, and none for the other zones; so
    the animation, which picks the meshes at the indices that leave 2 when
    divided by 3, pulses the pulse rings and nothing else. *)
Theorem createImpactTrajectory_pulses riskZones :
  length (createImpactTrajectory riskZones)
  = (3 * length (List.filter (fun zone => bool_decide (is_Some (coords_of zone)))
                   riskZones))%nat
  /\ forall childIndex c,
       createImpactTrajectory riskZones !! childIndex = Some c ->
       pulses c childIndex = true <-> exists phi theta, c = PulseRing phi theta.
Proof.
  induction riskZones as [|zone riskZones [IHlen IH]].
  - split; [reflexivity|]. intros i c.
    change (createImpactTrajectory []) with (@nil child).
    rewrite lookup_nil. discriminate.
  - rewrite createImpactTrajectory_cons. cbn [List.filter].
    destruct (coords_of zone) as [[lat lng]|].
    + rewrite bool_decide_true by eauto. cbn [length app]. split; [lia|].
      intros [|[|[|i]]] c; cbn [lookup list_lookup].
      * intros [= <-]. split; [discriminate|]. intros (? & ? & [=]).
      * intros [= <-]. split; [discriminate|]. intros (? & ? & [=]).
      * intros [= <-]. split; [eauto|reflexivity].
      * intros Hc. rewrite <- (IH i c Hc). unfold pulses.
        replace (S (S (S i)) mod 3)%nat with (i mod 3)%nat; [reflexivity|].
        change (S (S (S i))) with (3 + i)%nat.
        rewrite <- (Nat.Div0.add_mod_idemp_l 3 i 3). reflexivity.
    + rewrite bool_decide_false by (intros [? [=]]). cbn [app]. split; assumption.
Qed.

(** X22: every label that [generateRiskZones] can give has coordinates, so
    the trajectory of an enriched record has a line, a marker and a pulse
    ring for each of its risk zones. *)
Theorem generateRiskZones_have_coordinates e isPHA isSentry :
  Forall (fun zone => is_Some (zoneCoordinates !! zone)) (generateRiskZones e isPHA isSentry)
  /\ length (createImpactTrajectory (generateRiskZones e isPHA isSentry))
     = (3 * length (generateRiskZones e isPHA isSentry))%nat.
Proof.
  unfold generateRiskZones.
  split_ifs; (split; [repeat constructor; vm_compute; eauto | vm_compute; reflexivity]).
Qed.

(** ** The properties above on the sample records *)

(** An element that is at an index of a list is in the list. *)
Lemma lookup_In {A} (l : list A) i a : l !! i = Some a -> In a l.
Proof. intros H. apply list_elem_of_In. eapply list_elem_of_lookup_2, H. Qed.

(** A list whose length is not 0 is not empty. *)
Lemma nonempty_length {A} (l : list A) : length l <> 0%nat -> l <> [].
Proof. now intros H ->. Qed.

(** With the slider at 2 and three records loaded, two records are shown. *)
Lemma visibleAsteroids_most_important_example :
  length (visibleAsteroids
            (sortedData JS.pow_square_cube JS.not_a_numeral
               [asteroid_a; asteroid_b; asteroid_c]) 2) = 2%nat.
Proof.
  apply (proj1 (proj2 (proj2 (visibleAsteroids_most_important
                                JS.pow_square_cube JS.not_a_numeral
                                [asteroid_a; asteroid_b; asteroid_c] 2)))).
  cbn. lia.
Defined.

(** The small body without flags has the badge LOW. *)
Lemma getRiskLevel_enriched_example :
  getRiskLevel JS.not_a_numeral (enrich JS.pow_square_cube JS.not_a_numeral asteroid_e)
  = "LOW".
Proof.
  apply (proj2 (proj2 (proj2 (proj2 (getRiskLevel_enriched
                                       JS.pow_square_cube JS.not_a_numeral asteroid_e)))));
    vm_compute; reflexivity.
Defined.

(** LOW has the emerald class. *)
Lemma getRiskColor_levels_example :
  getRiskColor "LOW" = "text-emerald-100 bg-emerald-900".
Proof.
  apply (proj1 (proj2 (proj2 (proj2 (getRiskColor_levels "LOW"))))); discriminate.
Defined.

(** The record on the sentry list is red and its badge is CRITICAL. *)
Lemma mesh_colors_risk_level_example :
  getRiskLevel JS.not_a_numeral shown_sentry = "CRITICAL".
Proof.
  apply (proj1 (mesh_colors_risk_level JS.not_a_numeral shown_sentry
                  0xff3333 0x441111 eq_refl)).
  reflexivity.
Defined.

(** The colours of a sentry object without a diameter throw. *)
Lemma mesh_colors_throws_example :
  mesh_colors JS.not_a_numeral asteroid_sentry_without_diameter = None.
Proof.
  apply (mesh_colors_throws JS.not_a_numeral asteroid_sentry_without_diameter).
  split; vm_compute; reflexivity.
Defined.

(** The second ring of the three records is 27 away. *)
Lemma calculateDynamicRings_layout_example :
  distance (onRing placement_of_three) = (15 + 12 * Z.of_nat 1)%Z.
Proof.
  apply (proj2 (proj2 (calculateDynamicRings_layout JS.not_a_numeral (objects shown_three)))
           1%nat).
  vm_compute. reflexivity.
Defined.

(** Among the three records the hazardous one is in the hazardous group. *)
Lemma ring_groups_partition_example :
  includes (hazardousAsteroids JS.not_a_numeral (objects shown_three))
    (1%nat, shown_hazardous)
  = negb (isCritical JS.not_a_numeral (1%nat, shown_hazardous))
    && isHazardous JS.not_a_numeral (1%nat, shown_hazardous).
Proof.
  apply (proj1 (ring_groups_partition JS.not_a_numeral shown_three)).
  apply (lookup_In _ 1%nat). reflexivity.
Defined.

(** The hazardous one of the three records is not skipped. *)
Lemma place_never_skips_example :
  match place JS.not_a_numeral (objects shown_three) (1%nat, shown_hazardous) with
  | Skipped => False
  | _ => True
  end.
Proof.
  pose proof (place_never_skips JS.not_a_numeral shown_three (1%nat, shown_hazardous)
                (lookup_In (objects shown_three) 1%nat (1%nat, shown_hazardous) eq_refl)) as H.
  destruct (place JS.not_a_numeral (objects shown_three) (1%nat, shown_hazardous));
    [exact I|exact H|exact I].
Defined.

(** With a critical record shown, the hazardous record is on a hazardous ring. *)
Lemma place_ring_type_example :
  type (onRing placement_of_three) = "hazardous".
Proof.
  apply (place_ring_type JS.not_a_numeral shown_three (1%nat, shown_hazardous)
           placement_of_three).
  - apply nonempty_length. vm_compute. discriminate.
  - apply (lookup_In _ 1%nat). reflexivity.
  - vm_compute. reflexivity.
Defined.

(** Without a critical record, the hazardous record is on the critical ring. *)
Lemma place_without_critical_example :
  type (onRing placement_of_two) = "critical".
Proof.
  apply (proj2 (place_without_critical JS.not_a_numeral shown_two
                  (0%nat, shown_hazardous) placement_of_two
                  ltac:(vm_compute; reflexivity)
                  (lookup_In (objects shown_two) 0%nat (0%nat, shown_hazardous) eq_refl)
                  ltac:(vm_compute; reflexivity))).
  vm_compute. reflexivity.
Defined.

(** The three records give three meshes. *)
Lemma forEach_place_complete_example :
  length (fst (forEach_place JS.not_a_numeral (objects shown_three) (objects shown_three)))
  = length shown_three.
Proof.
  apply (proj2 (forEach_place_complete JS.not_a_numeral shown_three)).
  vm_compute. reflexivity.
Defined.

(** A sentry object without a diameter is loaded without an error. *)
Lemma flagged_without_diameter_throws_example :
  loadError (fetchAsteroidData JS.pow_square_cube JS.not_a_numeral
               (Ok [asteroid_a; asteroid_sentry_without_diameter])) = None.
Proof.
  apply (flagged_without_diameter_throws JS.pow_square_cube JS.not_a_numeral
           [asteroid_a; asteroid_sentry_without_diameter]
           asteroid_sentry_without_diameter).
  - right. left. reflexivity.
  - vm_compute. reflexivity.
  - vm_compute. reflexivity.
Defined.

(** The third child of the trajectory to the remote ocean, its pulse ring, pulses. *)
Lemma createImpactTrajectory_pulses_example :
  pulses (PulseRing ((90 - -30) * (JS.Math_PI / 180)) ((150 + 180) * (JS.Math_PI / 180))) 2
  = true.
Proof.
  apply (proj2 (createImpactTrajectory_pulses ["Remote Ocean"]) 2%nat).
  - vm_compute. reflexivity.
  - eexists _, _. reflexivity.
Defined.
